(** * The message store of the AI text processor

    A shallow embedding of the two revisions of the [App] component of
    dev-ayomide/ai-text-processor-hng:

    - [App]      embeds [src/App.jsx];
    - [Part000]  embeds the second revision of the same component (the file
                 whose name is not recorded).

    Both keep four [useState] cells (message list, draft, selected target
    language, error slot) and three event handlers that await the browser's
    on-device AI capabilities.  The capabilities are external: they are a
    parameter ([Self]) of every handler, and each call either resolves to a
    value or rejects.

    Handlers are embedded in a small state-and-exception monad whose state is
    the component's store together with the trace of console reports and
    capability calls.  A handler is run to completion before the next event
    is taken, so the snapshot a handler closes over is the store it later
    updates. *)

From Stdlib Require Import String Ascii NArith.
From stdpp Require Import base option list.

(** ** JavaScript strings and values *)

(** A JavaScript string is a sequence of UTF-16 code units; [.length] counts
    them. *)
Definition jsstring := list N.

(** The literals of the source are ASCII. *)
Definition js (s : string) : jsstring :=
  N_of_ascii <$> list_ascii_of_string s.
Arguments js : simpl never.

(** WhiteSpace and LineTerminator code points of ECMAScript, the ones
    [String.prototype.trim] strips. *)
Definition is_whitespace (c : N) : bool :=
  ((9 <=? c) && (c <=? 13)
   || (c =? 32) || (c =? 160) || (c =? 5760)
   || (8192 <=? c) && (c <=? 8202)
   || (c =? 8232) || (c =? 8233) || (c =? 8239) || (c =? 8287)
   || (c =? 12288) || (c =? 65279))%N.

Fixpoint trimStart (s : jsstring) : jsstring :=
  match s with
  | c :: s' => if is_whitespace c then trimStart s' else s
  | [] => []
  end.

Definition trimEnd (s : jsstring) : jsstring := reverse (trimStart (reverse s)).

Definition trim (s : jsstring) : jsstring := trimEnd (trimStart s).

(** The values the handlers receive from the capabilities and keep in
    message fields.  Only what the source inspects is represented:
    truthiness, strict equality with a string, and the own data properties
    [summary] and [detectedLanguage]. *)
#[warnings="-register-all"]
Inductive value :=
| VUndefined
| VNull
| VString (s : jsstring)
| VObject (fields : list (jsstring * value)).

(** ToBoolean. *)
Definition truthy (v : value) : bool :=
  match v with
  | VUndefined | VNull => false
  | VString s => match s with [] => false | _ => true end
  | VObject _ => true
  end.

(** [a || b]. *)
Definition js_or (a b : value) : value := if truthy a then a else b.

Fixpoint assoc (k : jsstring) (fields : list (jsstring * value)) : value :=
  match fields with
  | [] => VUndefined
  | (k', v) :: rest => if bool_decide (k = k') then v else assoc k rest
  end.

(** [v.k] for a property name [k] that strings do not carry ([summary],
    [detectedLanguage]); [None] is the TypeError of reading a property of
    [undefined] or [null]. *)
Definition get_prop (v : value) (k : jsstring) : option value :=
  match v with
  | VUndefined | VNull => None
  | VString _ => Some VUndefined
  | VObject fields => Some (assoc k fields)
  end.

(** [v?.k]. *)
Definition get_prop_opt (v : value) (k : jsstring) : value :=
  default VUndefined (get_prop v k).

(** [v === "..."]. *)
Definition strict_eq_string (v : value) (s : jsstring) : bool :=
  match v with
  | VString t => bool_decide (t = s)
  | _ => false
  end.

(** ** The host: [self.ai] *)

(** A promise settles one way or the other; the rejection reason is only
    ever passed on to [console.error]. *)
Inductive outcome (A : Type) :=
| Resolved (a : A)
| Rejected.
Arguments Resolved {A} a.
Arguments Rejected {A}.

Record LanguageDetector := { detect : jsstring → outcome (list value) }.
Record Summarizer := { summarize : jsstring → outcome value }.
Record Translator := { translate : jsstring → outcome value }.

Record SummarizerOptions :=
  { task : jsstring; format : jsstring; length_ : jsstring }.
Record TranslatorOptions :=
  { sourceLanguage : value; targetLanguage : jsstring }.

(** Each field is the capability's [create]; [None] is a capability the host
    does not expose (["summarizer" in self.ai] is false). *)
Record AI :=
  { languageDetector : option (outcome LanguageDetector);
    summarizer : option (SummarizerOptions → outcome Summarizer);
    translator : option (TranslatorOptions → outcome Translator) }.

Record Self := { ai : option AI }.

(** The configuration both revisions create the summarizer with. *)
Definition summarizerOptions : SummarizerOptions :=
  {| task := js "summarization"; format := js "plain-text"; length_ := js "short" |}.

(** ** Effects *)

Inductive Effect :=
| ConsoleError (msg : jsstring)
| CreateLanguageDetector
| Detect (text : jsstring)
| CreateSummarizer (options : SummarizerOptions)
| Summarize (text : jsstring)
| CreateTranslator (options : TranslatorOptions)
| Translate (text : jsstring).

Inductive completion (A : Type) :=
| Normal (a : A)
| Throw.
Arguments Normal {A} a.
Arguments Throw {A}.

Section Async.
Context {St : Type}.

(** The store of the component and what the handlers did to the outside,
    oldest first. *)
Record World := { store : St; trace : list Effect }.

Definition Js (A : Type) : Type := World → completion A * World.

Definition ret {A} (a : A) : Js A := λ w, (Normal a, w).

Definition bind {A B} (m : Js A) (k : A → Js B) : Js B :=
  λ w, match m w with
       | (Normal a, w') => k a w'
       | (Throw, w') => (Throw, w')
       end.

Definition throw {A} : Js A := λ w, (Throw, w).

(** [try { body } catch (error) { handler }]. *)
Definition try_catch {A} (body handler : Js A) : Js A :=
  λ w, match body w with
       | (Normal a, w') => (Normal a, w')
       | (Throw, w') => handler w'
       end.

Definition emit (e : Effect) : Js unit :=
  λ w, (Normal (), {| store := store w; trace := trace w ++ [e] |}).

(** The closure's view of the state cells. *)
Definition snapshot : Js St := λ w, (Normal (store w), w).

(** A state setter called with an updater function. *)
Definition update (f : St → St) : Js unit :=
  λ w, (Normal (), {| store := f (store w); trace := trace w |}).

Definition console_error (msg : string) : Js unit :=
  emit (ConsoleError (js msg)).

(** [await] of a capability call: the call is made, then its promise
    resolves or the rejection is thrown at the [await]. *)
Definition await {A} (call : Effect) (o : outcome A) : Js A :=
  bind (emit call)
       (λ _, match o with Resolved a => ret a | Rejected => throw end).

(** Reading a property of a value that may be [undefined] or [null]. *)
Definition prop (v : value) (k : string) : Js value :=
  match get_prop v (js k) with
  | Some x => ret x
  | None => throw
  end.
End Async.
Arguments World : clear implicits.
Arguments Js : clear implicits.

#[global] Instance Js_ret {St} : MRet (Js St) := @ret St.
#[global] Instance Js_bind {St} : MBind (Js St) := λ A B k m, bind m k.

(** ** What the user does *)

Inductive Event :=
| Change (text : jsstring)
| SelectLanguage (code : jsstring)
| Submit
| ClickSummarize (index : nat)
| ClickTranslate (index : nat).

(** ** What the user sees *)

Inductive Node :=
| Heading (caption : jsstring)
| Paragraph (label : jsstring) (content : value)
| Button (caption : jsstring) (onClick : Event)
| Select (selected : option jsstring) (options : list (jsstring * jsstring))
| Textarea (content : jsstring).

Definition languageOptions : list (jsstring * jsstring) :=
  [ (js "en", js "English"); (js "pt", js "Portuguese");
    (js "es", js "Spanish"); (js "ru", js "Russian");
    (js "tr", js "Turkish"); (js "fr", js "French") ].

(** [{cond && <node/>}]. *)
Definition when (cond : bool) (n : Node) : list Node :=
  if cond then [n] else [].

(** [!s] for a string. *)
Definition blank (s : jsstring) : bool := negb (truthy (VString s)).

(** ** [src/App.jsx] *)

Module App.

Record Message :=
  { text : jsstring;
    detectedLanguage : value;
    summary : value;
    translation : value }.

Record State :=
  { messages : list Message;
    inputText : jsstring;
    selectedLanguage : jsstring;
    error : jsstring }.

(** The arguments of the four [useState] calls. *)
Definition initial : State :=
  {| messages := []; inputText := []; selectedLanguage := js "en"; error := [] |}.

Definition with_messages (f : list Message → list Message) (s : State) : State :=
  {| messages := f (messages s); inputText := inputText s;
     selectedLanguage := selectedLanguage s; error := error s |}.

Definition with_inputText (v : jsstring) (s : State) : State :=
  {| messages := messages s; inputText := v;
     selectedLanguage := selectedLanguage s; error := error s |}.

Definition with_selectedLanguage (v : jsstring) (s : State) : State :=
  {| messages := messages s; inputText := inputText s;
     selectedLanguage := v; error := error s |}.

Definition with_error (v : jsstring) (s : State) : State :=
  {| messages := messages s; inputText := inputText s;
     selectedLanguage := selectedLanguage s; error := v |}.

(** [setMessages] takes the next list or an updater of the current one; a
    plain next list [l] is passed here as [const l]. *)
Definition setMessages (f : list Message → list Message) : Js State () :=
  update (with_messages f).
Definition setInputText (v : jsstring) : Js State () := update (with_inputText v).
Definition setSelectedLanguage (v : jsstring) : Js State () :=
  update (with_selectedLanguage v).
Definition setError (v : string) : Js State () := update (with_error (js v)).

(** [{ ...message, summary }]. *)
Definition with_summary (summary : value) (message : Message) : Message :=
  {| text := text message; detectedLanguage := detectedLanguage message;
     summary := summary; translation := translation message |}.

(** [message.translation = translation]. *)
Definition with_translation (translation : value) (message : Message) : Message :=
  {| text := text message; detectedLanguage := detectedLanguage message;
     summary := summary message; translation := translation |}.

Definition detectLanguage (self : Self) (text : jsstring) : Js State value :=
  match ai self ≫= languageDetector with
  | None =>
      console_error "Language Detector API not supported.";;
      mret VNull
  | Some create =>
      try_catch
        (detector ← await CreateLanguageDetector create;
         results ← await (Detect text) (detect detector text);
         match results with
         | first :: _ => prop first "detectedLanguage"
         | [] => mret VNull
         end)
        (console_error "Language detection error:";;
         mret VNull)
  end.

Definition summarizeText (self : Self) (text : jsstring) : Js State value :=
  match ai self ≫= summarizer with
  | None =>
      console_error "Summarizer API not supported.";;
      mret VNull
  | Some create =>
      try_catch
        (summarizer ← await (CreateSummarizer summarizerOptions) (create summarizerOptions);
         result ← await (Summarize text) (summarize summarizer text);
         if truthy result
         then (s ← prop result "summary"; mret (js_or s result))
         else mret (VString (js "Summarization failed")))
        (console_error "Summarization error:";;
         mret (VString (js "Error in summarization")))
  end.

Definition translateText (self : Self) (text : jsstring)
    (sourceLang : value) (targetLang : jsstring) : Js State value :=
  match ai self ≫= translator with
  | None =>
      console_error "Translator API not supported.";;
      mret VUndefined
  | Some create =>
      let options := {| sourceLanguage := sourceLang; targetLanguage := targetLang |} in
      try_catch
        (translator ← await (CreateTranslator options) (create options);
         await (Translate text) (translate translator text))
        (console_error "Translation error:";;
         mret VNull)
  end.

Definition handleSubmit (self : Self) : Js State () :=
  s ← snapshot;
  if blank (trim (inputText s))
  then setError "Please enter text before submitting."
  else
    setError "";;
    detectedLanguage ← detectLanguage self (inputText s);
    let newMessage :=
      {| text := inputText s; detectedLanguage := detectedLanguage;
         summary := VString (js ""); translation := VString (js "") |} in
    setMessages (const (messages s ++ [newMessage]));;
    setInputText (js "").

(** [messages[index]] of an index past the end is [undefined], and reading
    its [text] throws before any state is set.  The updater replaces the
    slot [index] of the list it is given, which is the list the message
    was read from: the write is in range, and the growth of a JavaScript
    array written past its end does not arise. *)
Definition handleSummarize (self : Self) (index : nat) : Js State () :=
  s ← snapshot;
  match messages s !! index with
  | None => throw
  | Some message =>
      if blank (text message) then mret ()
      else
        summary ← summarizeText self (text message);
        if truthy summary
        then setMessages (λ prevMessages, alter (with_summary summary) index prevMessages)
        else mret ()
  end.

(** The copy [[...messages]] shares its message objects with [messages];
    the assignment writes the one at [index], and the copy becomes the
    next list. *)
Definition handleTranslate (self : Self) (index : nat) : Js State () :=
  s ← snapshot;
  match messages s !! index with
  | None => throw
  | Some message =>
      translation ← translateText self (text message) (detectedLanguage message)
                                  (selectedLanguage s);
      if truthy translation
      then setMessages (const (alter (with_translation translation) index (messages s)))
      else mret ()
  end.

Definition handle (self : Self) (e : Event) : Js State () :=
  match e with
  | Change v => setInputText v
  | SelectLanguage v => setSelectedLanguage v
  | Submit => handleSubmit self
  | ClickSummarize index => handleSummarize self index
  | ClickTranslate index => handleTranslate self index
  end.

(** One event, handled to completion.  A handler that throws is a rejected
    promise nobody awaits: the component goes on with the store as it
    is then. *)
Definition step (w : World State) (a : Self * Event) : World State :=
  (handle a.1 a.2 w).2.

Definition run (w : World State) (l : list (Self * Event)) : World State :=
  foldl step w l.

Definition renderMessage (index : nat) (msg : Message) : list Node :=
  [ Paragraph (js "") (VString (text msg));
    Paragraph (js "Detected: ") (detectedLanguage msg) ]
  ++ when ((150 <? length (text msg)) && strict_eq_string (detectedLanguage msg) (js "en"))
          (Button (js "Summarize") (ClickSummarize index))
  ++ [ Select None languageOptions;
       Button (js "Translate") (ClickTranslate index) ]
  ++ when (truthy (summary msg)) (Paragraph (js "") (summary msg))
  ++ when (truthy (translation msg)) (Paragraph (js "") (translation msg)).

Definition render (s : State) : list Node :=
  [ Heading (js "AI-Powered Text Processor") ]
  ++ mjoin (imap renderMessage (messages s))
  ++ [ Textarea (inputText s); Button (js "Send") Submit ]
  ++ when (truthy (VString (error s))) (Paragraph (js "") (VString (error s))).

End App.

(** ** The second revision of the component *)

Module Part000.

Record Message :=
  { text : jsstring;
    language : value;
    summary : value;
    translation : value }.

Record State :=
  { messages : list Message;
    userInput : jsstring;
    selectedTargetLanguage : jsstring;
    error : jsstring }.

Definition initial : State :=
  {| messages := []; userInput := []; selectedTargetLanguage := js "en"; error := [] |}.

Definition with_messages (f : list Message → list Message) (s : State) : State :=
  {| messages := f (messages s); userInput := userInput s;
     selectedTargetLanguage := selectedTargetLanguage s; error := error s |}.

Definition with_userInput (v : jsstring) (s : State) : State :=
  {| messages := messages s; userInput := v;
     selectedTargetLanguage := selectedTargetLanguage s; error := error s |}.

Definition with_selectedTargetLanguage (v : jsstring) (s : State) : State :=
  {| messages := messages s; userInput := userInput s;
     selectedTargetLanguage := v; error := error s |}.

Definition with_error (v : jsstring) (s : State) : State :=
  {| messages := messages s; userInput := userInput s;
     selectedTargetLanguage := selectedTargetLanguage s; error := v |}.

Definition setMessages (f : list Message → list Message) : Js State () :=
  update (with_messages f).
Definition setUserInput (v : jsstring) : Js State () := update (with_userInput v).
Definition setSelectedTargetLanguage (v : jsstring) : Js State () :=
  update (with_selectedTargetLanguage v).
Definition setError (v : string) : Js State () := update (with_error (js v)).

(** [{ ...message, summary }] and [{ ...message, translation }]. *)
Definition with_summary (summary : value) (message : Message) : Message :=
  {| text := text message; language := language message;
     summary := summary; translation := translation message |}.

Definition with_translation (translation : value) (message : Message) : Message :=
  {| text := text message; language := language message;
     summary := summary message; translation := translation |}.

Definition detectLanguage (self : Self) (text : jsstring) : Js State value :=
  match ai self ≫= languageDetector with
  | None =>
      console_error "Language Detector API not supported.";;
      setError "Feature unavailable: Language detection.";;
      mret VNull
  | Some create =>
      try_catch
        (languageDetector ← await CreateLanguageDetector create;
         results ← await (Detect text) (detect languageDetector text);
         mret (js_or (get_prop_opt (default VUndefined (head results))
                                   (js "detectedLanguage"))
                     VNull))
        (console_error "Language detection error:";;
         setError "Could not detect the language. Please try again.";;
         mret VNull)
  end.

Definition summarizeText (self : Self) (text : jsstring) : Js State value :=
  match ai self ≫= summarizer with
  | None =>
      console_error "Summarizer API not supported.";;
      setError "Feature unavailable: Text summarization.";;
      mret VNull
  | Some create =>
      try_catch
        (summarizer ← await (CreateSummarizer summarizerOptions) (create summarizerOptions);
         summary ← await (Summarize text) (summarize summarizer text);
         mret (js_or (js_or (get_prop_opt summary (js "summary")) summary)
                     (VString (js "Failed to generate summary."))))
        (console_error "Summarization error:";;
         setError "Summarization failed. Please check your input and try again.";;
         mret VNull)
  end.

Definition translateText (self : Self) (text : jsstring)
    (sourceLang : value) (targetLang : jsstring) : Js State value :=
  match ai self ≫= translator with
  | None =>
      console_error "Translator API not supported.";;
      setError "Feature unavailable: Text translation.";;
      mret VNull
  | Some create =>
      let options := {| sourceLanguage := sourceLang; targetLanguage := targetLang |} in
      try_catch
        (translator ← await (CreateTranslator options) (create options);
         await (Translate text) (translate translator text))
        (console_error "Translation error:";;
         setError "Translation failed. Check if the language pair is supported.";;
         mret VNull)
  end.

Definition handleSubmit (self : Self) : Js State () :=
  s ← snapshot;
  if blank (trim (userInput s))
  then setError "Input field is empty. Please enter some text."
  else
    setError "";;
    detectedLanguage ← detectLanguage self (userInput s);
    let newMessage :=
      {| text := userInput s;
         language := js_or detectedLanguage (VString (js "Unknown"));
         summary := VNull; translation := VNull |} in
    setMessages (λ prevMessages, prevMessages ++ [newMessage]);;
    setUserInput (js "").

(** As in [App.handleSummarize]: an index past the end throws at
    [message.text], and the updater replaces the slot [index] of the list
    the message was read from. *)
Definition handleSummarize (self : Self) (index : nat) : Js State () :=
  s ← snapshot;
  match messages s !! index with
  | None => throw
  | Some message =>
      if blank (text message) then mret ()
      else
        summary ← summarizeText self (text message);
        if truthy summary
        then setMessages (λ prevMessages, alter (with_summary summary) index prevMessages)
        else mret ()
  end.

Definition handleTranslate (self : Self) (index : nat) : Js State () :=
  s ← snapshot;
  match messages s !! index with
  | None => throw
  | Some message =>
      if blank (text message) then mret ()
      else
        translation ← translateText self (text message) (language message)
                                    (selectedTargetLanguage s);
        if truthy translation
        then setMessages (λ prevMessages,
                            alter (with_translation translation) index prevMessages)
        else mret ()
  end.

Definition handle (self : Self) (e : Event) : Js State () :=
  match e with
  | Change v => setUserInput v
  | SelectLanguage v => setSelectedTargetLanguage v
  | Submit => handleSubmit self
  | ClickSummarize index => handleSummarize self index
  | ClickTranslate index => handleTranslate self index
  end.

Definition step (w : World State) (a : Self * Event) : World State :=
  (handle a.1 a.2 w).2.

Definition run (w : World State) (l : list (Self * Event)) : World State :=
  foldl step w l.

Definition renderMessage (selected : jsstring) (index : nat) (message : Message)
    : list Node :=
  [ Paragraph (js "") (VString (text message));
    Paragraph (js "Language: ") (language message) ]
  ++ when ((150 <? length (text message)) && strict_eq_string (language message) (js "en"))
          (Button (js "Summarize") (ClickSummarize index))
  ++ [ Select (Some selected) languageOptions;
       Button (js "Translate") (ClickTranslate index) ]
  ++ when (truthy (summary message)) (Paragraph (js "Summary:") (summary message))
  ++ when (truthy (translation message))
          (Paragraph (js "Translation:") (translation message)).

Definition render (s : State) : list Node :=
  [ Heading (js "AI-Powered Text Processor") ]
  ++ mjoin (imap (renderMessage (selectedTargetLanguage s)) (messages s))
  ++ [ Textarea (userInput s); Button (js "Send") Submit ]
  ++ when (truthy (VString (error s))) (Paragraph (js "") (VString (error s))).

End Part000.



(** ** How a capability answers

    The three helpers probe for a capability, create a handle and make one
    call.  [attempt_of] names the three ways this can go, and [calls_of] the
    calls that reach the host on the way. *)

Inductive attempt (A : Type) :=
| Unavailable
| Failed
| Returned (a : A).
Arguments Unavailable {A}.
Arguments Failed {A}.
Arguments Returned {A} a.

Definition attempt_of {H A} (create : option (outcome H)) (call : H → outcome A)
    : attempt A :=
  match create with
  | None => Unavailable
  | Some Rejected => Failed
  | Some (Resolved h) =>
      match call h with
      | Rejected => Failed
      | Resolved a => Returned a
      end
  end.

Definition calls_of {H} (create : option (outcome H)) (c1 c2 : Effect) : list Effect :=
  match create with
  | None => []
  | Some Rejected => [c1]
  | Some (Resolved _) => [c1; c2]
  end.

Definition detector_attempt (self : Self) (text : jsstring) : attempt (list value) :=
  attempt_of (ai self ≫= languageDetector) (λ h, detect h text).

Definition detector_calls (self : Self) (text : jsstring) : list Effect :=
  calls_of (ai self ≫= languageDetector) CreateLanguageDetector (Detect text).

Definition summarizer_attempt (self : Self) (text : jsstring) : attempt value :=
  attempt_of ((λ create, create summarizerOptions) <$> (ai self ≫= summarizer))
             (λ h, summarize h text).

Definition summarizer_calls (self : Self) (text : jsstring) : list Effect :=
  calls_of ((λ create, create summarizerOptions) <$> (ai self ≫= summarizer))
           (CreateSummarizer summarizerOptions) (Summarize text).

Definition translator_attempt (self : Self) (text : jsstring)
    (sourceLang : value) (targetLang : jsstring) : attempt value :=
  let options := {| sourceLanguage := sourceLang; targetLanguage := targetLang |} in
  attempt_of ((λ create, create options) <$> (ai self ≫= translator))
             (λ h, translate h text).

Definition translator_calls (self : Self) (text : jsstring)
    (sourceLang : value) (targetLang : jsstring) : list Effect :=
  let options := {| sourceLanguage := sourceLang; targetLanguage := targetLang |} in
  calls_of ((λ create, create options) <$> (ai self ≫= translator))
           (CreateTranslator options) (Translate text).

(** What the two [summarizeText] hand back when the call returns [result]:
    the [summary] property of an object, else the result itself, else a
    fixed text. *)
Definition App_summary_of (result : value) : value :=
  if truthy result then js_or (get_prop_opt result (js "summary")) result
  else VString (js "Summarization failed").

Definition Part000_summary_of (result : value) : value :=
  js_or (js_or (get_prop_opt result (js "summary")) result)
        (VString (js "Failed to generate summary.")).

(** ** The submissions of a session

    The drafts a sequence of events submits, in order: what the textarea
    holds at each [Submit], unless it trims to nothing; an accepted
    submission empties the textarea. *)
Fixpoint submissions (draft : jsstring) (l : list (Self * Event)) : list jsstring :=
  match l with
  | [] => []
  | (_, Change v) :: l' => submissions v l'
  | (_, Submit) :: l' =>
      if blank (trim draft) then submissions draft l'
      else draft :: submissions (js "") l'
  | _ :: l' => submissions draft l'
  end.

Abbreviation world s t := {| store := s; trace := t |}.

(** ** Sample hosts and stores *)

(** A browser without [self.ai]. *)
Definition noAI : Self := {| ai := None |}.

(** A browser whose detector recognises nothing. *)
Definition silentDetectorAI : Self :=
  {| ai := Some {| languageDetector := Some (Resolved {| detect := λ _, Resolved [] |});
                   summarizer := None; translator := None |} |}.

(** A browser with only a summarizer, answering every text with [answer]. *)
Definition summarizerAI (answer : outcome value) : Self :=
  {| ai := Some {| languageDetector := None;
                   summarizer := Some (λ _, Resolved {| summarize := λ _, answer |});
                   translator := None |} |}.

(** A summarizer that answers with the empty string. *)
Definition emptySummarizerAI : Self := summarizerAI (Resolved (VString (js ""))).

(** A browser with only a translator, which knows French and Spanish. *)
Definition translatorAI : Self :=
  {| ai := Some {| languageDetector := None; summarizer := None;
                   translator :=
                     Some (λ options,
                       if bool_decide (targetLanguage options = js "fr")
                       then Resolved {| translate := λ _, Resolved (VString (js "Bonjour")) |}
                       else if bool_decide (targetLanguage options = js "es")
                       then Resolved {| translate := λ _, Resolved (VString (js "Hola")) |}
                       else Rejected) |} |}.

(** A browser with only a translator, which answers with the empty string. *)
Definition muteTranslatorAI : Self :=
  {| ai := Some {| languageDetector := None; summarizer := None;
                   translator :=
                     Some (λ _, Resolved {| translate := λ _, Resolved (VString (js "")) |}) |} |}.

(** One English message, as each revision creates it. *)
Definition App_hello : App.Message :=
  {| App.text := js "Hello"; App.detectedLanguage := VString (js "en");
     App.summary := VString (js ""); App.translation := VString (js "") |}.
Definition App_chat : App.State := App.with_messages (const [App_hello]) App.initial.

Definition Part000_hello : Part000.Message :=
  {| Part000.text := js "Hello"; Part000.language := VString (js "en");
     Part000.summary := VNull; Part000.translation := VNull |}.
Definition Part000_chat : Part000.State :=
  Part000.with_messages (const [Part000_hello]) Part000.initial.

(** An English message of [n] code units. *)
Definition Part000_long (n : nat) : Part000.Message :=
  {| Part000.text := replicate n 97%N; Part000.language := VString (js "en");
     Part000.summary := VNull; Part000.translation := VNull |}.

(** The user types "Hello" and submits, in a browser without [self.ai]. *)
Definition hello_session : list (Self * Event) :=
  [(noAI, Change (js "Hello")); (noAI, Submit)].

(** The user submits "A", then "B". *)
Definition ab_session : list (Self * Event) :=
  [ (noAI, Change (js "A")); (noAI, Submit); (noAI, Change (js "B")); (noAI, Submit) ].

(** The store after the user typed [draft] into a fresh component. *)
Definition App_typed (draft : jsstring) : App.State :=
  App.with_inputText draft App.initial.
Definition Part000_typed (draft : jsstring) : Part000.State :=
  Part000.with_userInput draft Part000.initial.

(** ** What a click does to the message list

    The list a click leaves, as a function of the list it finds (and, for a
    translation, of the selected language). *)
Definition App_summarize_update (self : Self) (index : nat)
    (l : list App.Message) : list App.Message :=
  match l !! index with
  | None => l
  | Some message =>
      if blank (App.text message) then l
      else match summarizer_attempt self (App.text message) with
           | Unavailable => l
           | Failed =>
               alter (App.with_summary (VString (js "Error in summarization"))) index l
           | Returned result => alter (App.with_summary (App_summary_of result)) index l
           end
  end.

Definition App_translate_update (self : Self) (selected : jsstring) (index : nat)
    (l : list App.Message) : list App.Message :=
  match l !! index with
  | None => l
  | Some message =>
      match translator_attempt self (App.text message) (App.detectedLanguage message)
                               selected with
      | Returned translation =>
          if truthy translation then alter (App.with_translation translation) index l
          else l
      | _ => l
      end
  end.

Definition Part000_summarize_update (self : Self) (index : nat)
    (l : list Part000.Message) : list Part000.Message :=
  match l !! index with
  | None => l
  | Some message =>
      if blank (Part000.text message) then l
      else match summarizer_attempt self (Part000.text message) with
           | Returned result =>
               alter (Part000.with_summary (Part000_summary_of result)) index l
           | _ => l
           end
  end.

Definition Part000_translate_update (self : Self) (selected : jsstring) (index : nat)
    (l : list Part000.Message) : list Part000.Message :=
  match l !! index with
  | None => l
  | Some message =>
      if blank (Part000.text message) then l
      else match translator_attempt self (Part000.text message)
                                    (Part000.language message) selected with
           | Returned translation =>
               if truthy translation
               then alter (Part000.with_translation translation) index l
               else l
           | _ => l
           end
  end.

(** ** What a submission appends

    The value each [detectLanguage] returns for a draft, and the message an
    accepted submission builds from it. *)
Definition App_detected (self : Self) (draft : jsstring) : value :=
  match detector_attempt self draft with
  | Returned (first :: _) => default VNull (get_prop first (js "detectedLanguage"))
  | _ => VNull
  end.

Definition Part000_detected (self : Self) (draft : jsstring) : value :=
  match detector_attempt self draft with
  | Returned results =>
      js_or (get_prop_opt (default VUndefined (head results)) (js "detectedLanguage")) VNull
  | _ => VNull
  end.

Definition App_new_message (self : Self) (draft : jsstring) : App.Message :=
  {| App.text := draft; App.detectedLanguage := App_detected self draft;
     App.summary := VString (js ""); App.translation := VString (js "") |}.

Definition Part000_new_message (self : Self) (draft : jsstring) : Part000.Message :=
  {| Part000.text := draft;
     Part000.language := js_or (Part000_detected self draft) (VString (js "Unknown"));
     Part000.summary := VNull; Part000.translation := VNull |}.

(** ** Reading a trace *)

Definition is_call (e : Effect) : bool :=
  match e with
  | ConsoleError _ => false
  | _ => true
  end.

Definition is_report (e : Effect) : bool := negb (is_call e).

(** The capability calls an event can make from a store, in order: one
    creation and one call of the event's own capability, with the arguments
    the handler reads from its snapshot. *)
Definition App_expected_calls (s : App.State) (e : Event) : list Effect :=
  match e with
  | Submit => [CreateLanguageDetector; Detect (App.inputText s)]
  | ClickSummarize index =>
      match App.messages s !! index with
      | Some message => [CreateSummarizer summarizerOptions; Summarize (App.text message)]
      | None => []
      end
  | ClickTranslate index =>
      match App.messages s !! index with
      | Some message =>
          [ CreateTranslator {| sourceLanguage := App.detectedLanguage message;
                                targetLanguage := App.selectedLanguage s |};
            Translate (App.text message) ]
      | None => []
      end
  | _ => []
  end.

Definition Part000_expected_calls (s : Part000.State) (e : Event) : list Effect :=
  match e with
  | Submit => [CreateLanguageDetector; Detect (Part000.userInput s)]
  | ClickSummarize index =>
      match Part000.messages s !! index with
      | Some message =>
          [CreateSummarizer summarizerOptions; Summarize (Part000.text message)]
      | None => []
      end
  | ClickTranslate index =>
      match Part000.messages s !! index with
      | Some message =>
          [ CreateTranslator {| sourceLanguage := Part000.language message;
                                targetLanguage := Part000.selectedTargetLanguage s |};
            Translate (Part000.text message) ]
      | None => []
      end
  | _ => []
  end.

(** The target language a session leaves selected: the last one picked. *)
Fixpoint selection (current : jsstring) (l : list (Self * Event)) : jsstring :=
  match l with
  | [] => current
  | (_, SelectLanguage v) :: l' => selection v l'
  | _ :: l' => selection current l'
  end.

(** The error slot [src/App.jsx] shows after a session: the validation
    message if the last submission was rejected, nothing if it was accepted,
    and what it showed before if nothing was submitted. *)
Fixpoint App_error_after (draft error : jsstring) (l : list (Self * Event)) : jsstring :=
  match l with
  | [] => error
  | (_, Change v) :: l' => App_error_after v error l'
  | (_, Submit) :: l' =>
      if blank (trim draft)
      then App_error_after draft (js "Please enter text before submitting.") l'
      else App_error_after (js "") (js "") l'
  | _ :: l' => App_error_after draft error l'
  end.

(** The messages the second revision can put in the error slot. *)
Definition Part000_error_messages : list jsstring :=
  [ js "";
    js "Input field is empty. Please enter some text.";
    js "Feature unavailable: Language detection.";
    js "Could not detect the language. Please try again.";
    js "Feature unavailable: Text summarization.";
    js "Summarization failed. Please check your input and try again.";
    js "Feature unavailable: Text translation.";
    js "Translation failed. Check if the language pair is supported." ].

(** ** More sample hosts *)

(** A detection result as the host reports it. *)
Definition detection (code : string) : value :=
  VObject [(js "detectedLanguage", VString (js code))].

(** A browser with only a detector, which answers with [results]. *)
Definition detectorAI (results : list value) : Self :=
  {| ai := Some {| languageDetector := Some (Resolved {| detect := λ _, Resolved results |});
                   summarizer := None; translator := None |} |}.

(** A browser that detects English and summarizes everything as "Short."; it
    has no translator. *)
Definition englishAI : Self :=
  {| ai := Some {| languageDetector :=
                     Some (Resolved {| detect := λ _, Resolved [detection "en"] |});
                   summarizer :=
                     Some (λ _, Resolved {| summarize := λ _, Resolved (VString (js "Short.")) |});
                   translator := None |} |}.

(** ** Stores the page can show

    React renders a string and skips [null] and [undefined], and throws on
    an object given as a child.  The lists of nodes of [App.render] and
    [Part000.render] are the page of a store whose interpolated values are
    no objects. *)
Definition is_object (v : value) : bool :=
  match v with
  | VObject _ => true
  | _ => false
  end.

Definition Part000_renderable (s : Part000.State) : Prop :=
  Forall (λ message,
            is_object (Part000.language message) = false
            ∧ is_object (Part000.summary message) = false
            ∧ is_object (Part000.translation message) = false)
         (Part000.messages s).

(** ** The second revision with handlers that overlap

    An [async] handler runs up to the first [await] of a promise that is
    still pending, and its rest runs when that promise settles; other
    events can be handled in between.  The promises that can be pending
    are the host's: a handler that finds its capability creates it and is
    suspended, holding what its closure captured.  A handler that meets no
    host promise (a rejected draft, an absent capability, a message
    without text, a missing message) runs to its end at once, as in
    [Part000.handle]: an [await] of a settled promise resumes before the
    next event.  The creation, the call and the rest of the handler are
    run in one step when the task settles: between them the handler
    touches only the trace.

    The updaters of the suspended handlers run on the list of the time
    they settle.  That list has grown only (see [Overlap_tasks_in_range]),
    so the slot they write is in range. *)

(** [await] of a promise whose call was made before the suspension. *)
Definition settle {St A} (o : outcome A) : Js St A :=
  match o with
  | Resolved a => ret a
  | Rejected => throw
  end.

Module Overlap.

(** A suspended handler: the pending creation and the captured values. *)
Inductive Task :=
| AwaitDetection (created : outcome LanguageDetector) (userInput : jsstring)
| AwaitSummary (created : outcome Summarizer) (index : nat) (text : jsstring)
| AwaitTranslation (created : outcome Translator) (index : nat) (text : jsstring).

(** The [try] blocks of the three helpers from the settlement of [create]
    on, with their [catch]. *)
Definition detectLanguage_rest (created : outcome LanguageDetector) (text : jsstring)
    : Js Part000.State value :=
  try_catch
    (languageDetector ← settle created;
     results ← await (Detect text) (detect languageDetector text);
     mret (js_or (get_prop_opt (default VUndefined (head results))
                               (js "detectedLanguage"))
                 VNull))
    (console_error "Language detection error:";;
     Part000.setError "Could not detect the language. Please try again.";;
     mret VNull).

Definition summarizeText_rest (created : outcome Summarizer) (text : jsstring)
    : Js Part000.State value :=
  try_catch
    (summarizer ← settle created;
     summary ← await (Summarize text) (summarize summarizer text);
     mret (js_or (js_or (get_prop_opt summary (js "summary")) summary)
                 (VString (js "Failed to generate summary."))))
    (console_error "Summarization error:";;
     Part000.setError "Summarization failed. Please check your input and try again.";;
     mret VNull).

Definition translateText_rest (created : outcome Translator) (text : jsstring)
    : Js Part000.State value :=
  try_catch
    (translator ← settle created;
     await (Translate text) (translate translator text))
    (console_error "Translation error:";;
     Part000.setError "Translation failed. Check if the language pair is supported.";;
     mret VNull).

(** The rest of the three handlers. *)
Definition resume (task : Task) : Js Part000.State () :=
  match task with
  | AwaitDetection created userInput =>
      detectedLanguage ← detectLanguage_rest created userInput;
      let newMessage :=
        {| Part000.text := userInput;
           Part000.language := js_or detectedLanguage (VString (js "Unknown"));
           Part000.summary := VNull; Part000.translation := VNull |} in
      Part000.setMessages (λ prevMessages, prevMessages ++ [newMessage]);;
      Part000.setUserInput (js "")
  | AwaitSummary created index text =>
      summary ← summarizeText_rest created text;
      if truthy summary
      then Part000.setMessages
             (λ prevMessages, alter (Part000.with_summary summary) index prevMessages)
      else mret ()
  | AwaitTranslation created index text =>
      translation ← translateText_rest created text;
      if truthy translation
      then Part000.setMessages
             (λ prevMessages,
                alter (Part000.with_translation translation) index prevMessages)
      else mret ()
  end.

(** An event, up to the suspension of its handler if there is one. *)
Definition start (self : Self) (e : Event) : Js Part000.State (option Task) :=
  s ← snapshot;
  match e with
  | Submit =>
      match ai self ≫= languageDetector with
      | Some create =>
          if blank (trim (Part000.userInput s))
          then Part000.handleSubmit self;; mret None
          else
            Part000.setError "";;
            emit CreateLanguageDetector;;
            mret (Some (AwaitDetection create (Part000.userInput s)))
      | None => Part000.handleSubmit self;; mret None
      end
  | ClickSummarize index =>
      match Part000.messages s !! index, ai self ≫= summarizer with
      | Some message, Some create =>
          if blank (Part000.text message)
          then Part000.handleSummarize self index;; mret None
          else
            emit (CreateSummarizer summarizerOptions);;
            mret (Some (AwaitSummary (create summarizerOptions) index
                                     (Part000.text message)))
      | _, _ => Part000.handleSummarize self index;; mret None
      end
  | ClickTranslate index =>
      match Part000.messages s !! index, ai self ≫= translator with
      | Some message, Some create =>
          if blank (Part000.text message)
          then Part000.handleTranslate self index;; mret None
          else
            let options := {| sourceLanguage := Part000.language message;
                              targetLanguage := Part000.selectedTargetLanguage s |} in
            emit (CreateTranslator options);;
            mret (Some (AwaitTranslation (create options) index (Part000.text message)))
      | _, _ => Part000.handleTranslate self index;; mret None
      end
  | _ => Part000.handle self e;; mret None
  end.

(** The component and its suspended handlers, oldest first. *)
Record System := { current : World Part000.State; pending : list Task }.

(** What happens next: the user does something, or the promises of the
    [k]-th suspended handler settle. *)
Inductive Action :=
| User (self : Self) (e : Event)
| Settle (k : nat).

Definition step (sys : System) (a : Action) : System :=
  match a with
  | User self e =>
      let r := start self e (current sys) in
      {| current := r.2;
         pending := pending sys ++ match r.1 with
                                   | Normal (Some task) => [task]
                                   | _ => []
                                   end |}
  | Settle k =>
      match pending sys !! k with
      | Some task =>
          {| current := (resume task (current sys)).2; pending := delete k (pending sys) |}
      | None => sys
      end
  end.

Definition run (sys : System) (l : list Action) : System := foldl step sys l.

(** The texts an action appends to the list: the draft of a suspended
    submission when it settles, and the draft of a submission that runs to
    its end at once. *)
Definition appended (sys : System) (a : Action) : list jsstring :=
  match a with
  | Settle k =>
      match pending sys !! k with
      | Some (AwaitDetection _ userInput) => [userInput]
      | _ => []
      end
  | User self Submit =>
      match ai self ≫= languageDetector with
      | Some _ => []
      | None =>
          if blank (trim (Part000.userInput (store (current sys)))) then []
          else [Part000.userInput (store (current sys))]
      end
  | User _ _ => []
  end.

(** The texts a schedule appends, in the order its actions append them. *)
Fixpoint appended_along (sys : System) (l : list Action) : list jsstring :=
  match l with
  | [] => []
  | a :: l' => appended sys a ++ appended_along (step sys a) l'
  end.

(** What the user does in a schedule, in order. *)
Fixpoint events (l : list Action) : list (Self * Event) :=
  match l with
  | [] => []
  | User self e :: l' => (self, e) :: events l'
  | Settle _ :: l' => events l'
  end.

(** The slot a suspended click will write. *)
Definition target (task : Task) : option nat :=
  match task with
  | AwaitDetection _ _ => None
  | AwaitSummary _ index _ | AwaitTranslation _ index _ => Some index
  end.

(** A fresh component with nothing pending. *)
Definition initial : System :=
  {| current := {| store := Part000.initial; trace := [] |}; pending := [] |}.

End Overlap.

(** A browser whose detector takes its time: the user submits "A", then
    "B" before the first detection has answered, and the second detection
    answers first. *)
Definition overtaking_schedule : list Overlap.Action :=
  [ Overlap.User (detectorAI [detection "en"]) (Change (js "A"));
    Overlap.User (detectorAI [detection "en"]) Submit;
    Overlap.User (detectorAI [detection "en"]) (Change (js "B"));
    Overlap.User (detectorAI [detection "en"]) Submit;
    Overlap.Settle 1;
    Overlap.Settle 0 ].

(** * Properties *)

Ltac js_unfold :=
  unfold mbind, mret, Js_bind, Js_ret, bind, ret, snapshot, update, emit,
    throw, try_catch, await, console_error, prop.

Ltac js_simpl := js_unfold; cbn; rewrite <- ?app_assoc; cbn.


(** ** Trimming *)

Lemma trimStart_nil_iff (s : jsstring) :
  trimStart s = [] ↔ forallb is_whitespace s = true.
Proof.
  induction s as [|c s IH]; simpl; [done|].
  destruct (is_whitespace c); simpl; [exact IH|].
  split; discriminate.
Qed.

Lemma forallb_reverse {A} (f : A → bool) (l : list A) :
  forallb f (reverse l) = forallb f l.
Proof.
  induction l as [|x l IH]; [done|].
  rewrite reverse_cons, forallb_app, IH. simpl.
  rewrite andb_true_r. apply andb_comm.
Qed.

Lemma trimStart_whitespace (s : jsstring) :
  forallb is_whitespace (trimStart s) = true → trimStart s = [].
Proof.
  induction s as [|c s IH]; simpl; [done|].
  destruct (is_whitespace c) eqn:Hc; [exact IH|].
  simpl. rewrite Hc. discriminate.
Qed.

(** A draft trims to the empty string exactly when it is empty or made of
    whitespace only. *)
Lemma trim_nil_iff (s : jsstring) :
  trim s = [] ↔ forallb is_whitespace s = true.
Proof.
  unfold trim, trimEnd. rewrite <- trimStart_nil_iff. split.
  - intros H. apply (f_equal reverse) in H. rewrite reverse_involutive in H.
    simpl in H. apply trimStart_nil_iff in H. rewrite forallb_reverse in H.
    by apply trimStart_whitespace.
  - intros ->. done.
Qed.

Example trim_inner_space : trim (js "  to be  ") = js "to be".
Proof. reflexivity. Qed.

Example trim_line_ends : trim [9; 10; 13; 160; 104; 105; 8232; 65279]%N = js "hi".
Proof. reflexivity. Qed.

Lemma blank_true (s : jsstring) : blank s = true ↔ s = [].
Proof. destruct s; simpl; split; (done || discriminate). Qed.


(** ** The helpers of [src/App.jsx] *)

Lemma App_detectLanguage_spec self text s t :
  App.detectLanguage self text (world s t) =
  match detector_attempt self text with
  | Unavailable =>
      (Normal VNull,
       world s (t ++ [ConsoleError (js "Language Detector API not supported.")]))
  | Failed =>
      (Normal VNull,
       world s (t ++ detector_calls self text
                  ++ [ConsoleError (js "Language detection error:")]))
  | Returned [] => (Normal VNull, world s (t ++ detector_calls self text))
  | Returned (first :: _) =>
      match get_prop first (js "detectedLanguage") with
      | Some v => (Normal v, world s (t ++ detector_calls self text))
      | None =>
          (Normal VNull,
           world s (t ++ detector_calls self text
                      ++ [ConsoleError (js "Language detection error:")]))
      end
  end.
Proof.
  unfold App.detectLanguage, detector_attempt, detector_calls, attempt_of, calls_of.
  destruct (ai self ≫= languageDetector) as [[h|]|]; js_simpl; try done.
  destruct (detect h text) as [[|first results]|]; js_simpl; try done.
  destruct (get_prop first _); js_simpl; done.
Qed.

Lemma App_summarizeText_spec self text s t :
  App.summarizeText self text (world s t) =
  match summarizer_attempt self text with
  | Unavailable =>
      (Normal VNull,
       world s (t ++ [ConsoleError (js "Summarizer API not supported.")]))
  | Failed =>
      (Normal (VString (js "Error in summarization")),
       world s (t ++ summarizer_calls self text
                  ++ [ConsoleError (js "Summarization error:")]))
  | Returned result =>
      (Normal (App_summary_of result), world s (t ++ summarizer_calls self text))
  end.
Proof.
  unfold App.summarizeText, summarizer_attempt, summarizer_calls, attempt_of, calls_of.
  destruct (ai self ≫= summarizer) as [create|]; js_simpl; try done.
  destruct (create summarizerOptions) as [h|]; js_simpl; try done.
  destruct (summarize h text) as [result|]; js_simpl; try done.
  destruct result as [| |r|fields]; js_simpl; try done.
  destruct r; js_simpl; done.
Qed.

Lemma App_translateText_spec self text sourceLang targetLang s t :
  App.translateText self text sourceLang targetLang (world s t) =
  match translator_attempt self text sourceLang targetLang with
  | Unavailable =>
      (Normal VUndefined,
       world s (t ++ [ConsoleError (js "Translator API not supported.")]))
  | Failed =>
      (Normal VNull,
       world s (t ++ translator_calls self text sourceLang targetLang
                  ++ [ConsoleError (js "Translation error:")]))
  | Returned translation =>
      (Normal translation,
       world s (t ++ translator_calls self text sourceLang targetLang))
  end.
Proof.
  unfold App.translateText, translator_attempt, translator_calls, attempt_of, calls_of.
  destruct (ai self ≫= translator) as [create|]; js_simpl; try done.
  destruct (create _) as [h|]; js_simpl; try done.
  destruct (translate h text) as [result|]; js_simpl; done.
Qed.

(** ** The helpers of the second revision *)

Lemma Part000_detectLanguage_spec self text s t :
  Part000.detectLanguage self text (world s t) =
  match detector_attempt self text with
  | Unavailable =>
      (Normal VNull,
       world (Part000.with_error (js "Feature unavailable: Language detection.") s)
             (t ++ [ConsoleError (js "Language Detector API not supported.")]))
  | Failed =>
      (Normal VNull,
       world (Part000.with_error
                (js "Could not detect the language. Please try again.") s)
             (t ++ detector_calls self text
                ++ [ConsoleError (js "Language detection error:")]))
  | Returned results =>
      (Normal (js_or (get_prop_opt (default VUndefined (head results))
                                   (js "detectedLanguage")) VNull),
       world s (t ++ detector_calls self text))
  end.
Proof.
  unfold Part000.detectLanguage, Part000.setError, detector_attempt, detector_calls,
    attempt_of, calls_of.
  destruct (ai self ≫= languageDetector) as [[h|]|]; js_simpl; try done.
  destruct (detect h text) as [results|]; js_simpl; done.
Qed.

Lemma Part000_summarizeText_spec self text s t :
  Part000.summarizeText self text (world s t) =
  match summarizer_attempt self text with
  | Unavailable =>
      (Normal VNull,
       world (Part000.with_error (js "Feature unavailable: Text summarization.") s)
             (t ++ [ConsoleError (js "Summarizer API not supported.")]))
  | Failed =>
      (Normal VNull,
       world (Part000.with_error
                (js "Summarization failed. Please check your input and try again.") s)
             (t ++ summarizer_calls self text
                ++ [ConsoleError (js "Summarization error:")]))
  | Returned summary =>
      (Normal (Part000_summary_of summary), world s (t ++ summarizer_calls self text))
  end.
Proof.
  unfold Part000.summarizeText, Part000.setError, summarizer_attempt, summarizer_calls,
    attempt_of, calls_of.
  destruct (ai self ≫= summarizer) as [create|]; js_simpl; try done.
  destruct (create summarizerOptions) as [h|]; js_simpl; try done.
  destruct (summarize h text) as [result|]; js_simpl; done.
Qed.

Lemma Part000_translateText_spec self text sourceLang targetLang s t :
  Part000.translateText self text sourceLang targetLang (world s t) =
  match translator_attempt self text sourceLang targetLang with
  | Unavailable =>
      (Normal VNull,
       world (Part000.with_error (js "Feature unavailable: Text translation.") s)
             (t ++ [ConsoleError (js "Translator API not supported.")]))
  | Failed =>
      (Normal VNull,
       world (Part000.with_error
                (js "Translation failed. Check if the language pair is supported.") s)
             (t ++ translator_calls self text sourceLang targetLang
                ++ [ConsoleError (js "Translation error:")]))
  | Returned translation =>
      (Normal translation,
       world s (t ++ translator_calls self text sourceLang targetLang))
  end.
Proof.
  unfold Part000.translateText, Part000.setError, translator_attempt, translator_calls,
    attempt_of, calls_of.
  destruct (ai self ≫= translator) as [create|]; js_simpl; try done.
  destruct (create _) as [h|]; js_simpl; try done.
  destruct (translate h text) as [result|]; js_simpl; done.
Qed.

(** ** The click handlers *)

Lemma truthy_js_or a b : truthy (js_or a b) = truthy a || truthy b.
Proof. unfold js_or. by destruct (truthy a) eqn:Ha; [rewrite Ha|]. Qed.

Lemma blank_false (s : jsstring) : blank s = false ↔ s ≠ [].
Proof. destruct s; simpl; split; (done || discriminate). Qed.

Lemma alter_insert {A} (f : A → A) (l : list A) i x :
  l !! i = Some x → alter f i l = <[i := f x]> l.
Proof.
  revert i. induction l as [|y l IH]; intros [|i] H; simplify_eq/=; [done|].
  f_equal. by apply IH.
Qed.

Lemma App_summary_of_truthy result : truthy (App_summary_of result) = true.
Proof.
  unfold App_summary_of. destruct (truthy result) eqn:Hr; [|done].
  by rewrite truthy_js_or, Hr, orb_true_r.
Qed.

Lemma Part000_summary_of_truthy result : truthy (Part000_summary_of result) = true.
Proof. unfold Part000_summary_of. by rewrite truthy_js_or, orb_true_r. Qed.

Lemma summary_of_string (result : jsstring) :
  result ≠ [] →
  App_summary_of (VString result) = VString result
  ∧ Part000_summary_of (VString result) = VString result.
Proof. by destruct result. Qed.

Lemma App_handleSummarize_spec self index message s t :
  App.messages s !! index = Some message →
  App.text message ≠ [] →
  App.handleSummarize self index (world s t) =
  match summarizer_attempt self (App.text message) with
  | Unavailable =>
      (Normal (), world s (t ++ [ConsoleError (js "Summarizer API not supported.")]))
  | Failed =>
      (Normal (),
       world (App.with_messages
                (alter (App.with_summary (VString (js "Error in summarization"))) index) s)
             (t ++ summarizer_calls self (App.text message)
                ++ [ConsoleError (js "Summarization error:")]))
  | Returned result =>
      (Normal (),
       world (App.with_messages (alter (App.with_summary (App_summary_of result)) index) s)
             (t ++ summarizer_calls self (App.text message)))
  end.
Proof.
  intros Hm Htext. apply blank_false in Htext.
  unfold App.handleSummarize, App.setMessages. js_simpl.
  rewrite Hm, Htext, App_summarizeText_spec.
  destruct (summarizer_attempt _ _) as [| |result]; js_simpl; try done.
  by rewrite App_summary_of_truthy.
Qed.

Lemma Part000_handleSummarize_spec self index message s t :
  Part000.messages s !! index = Some message →
  Part000.text message ≠ [] →
  Part000.handleSummarize self index (world s t) =
  match summarizer_attempt self (Part000.text message) with
  | Unavailable =>
      (Normal (),
       world (Part000.with_error (js "Feature unavailable: Text summarization.") s)
             (t ++ [ConsoleError (js "Summarizer API not supported.")]))
  | Failed =>
      (Normal (),
       world (Part000.with_error
                (js "Summarization failed. Please check your input and try again.") s)
             (t ++ summarizer_calls self (Part000.text message)
                ++ [ConsoleError (js "Summarization error:")]))
  | Returned result =>
      (Normal (),
       world (Part000.with_messages
                (alter (Part000.with_summary (Part000_summary_of result)) index) s)
             (t ++ summarizer_calls self (Part000.text message)))
  end.
Proof.
  intros Hm Htext. apply blank_false in Htext.
  unfold Part000.handleSummarize, Part000.setMessages. js_simpl.
  rewrite Hm, Htext, Part000_summarizeText_spec.
  destruct (summarizer_attempt _ _) as [| |result]; js_simpl; try done.
  by rewrite Part000_summary_of_truthy.
Qed.

Lemma App_handleTranslate_spec self index message s t :
  App.messages s !! index = Some message →
  App.handleTranslate self index (world s t) =
  let calls := translator_calls self (App.text message) (App.detectedLanguage message)
                                (App.selectedLanguage s) in
  match translator_attempt self (App.text message) (App.detectedLanguage message)
                           (App.selectedLanguage s) with
  | Unavailable =>
      (Normal (), world s (t ++ [ConsoleError (js "Translator API not supported.")]))
  | Failed =>
      (Normal (), world s (t ++ calls ++ [ConsoleError (js "Translation error:")]))
  | Returned translation =>
      (Normal (),
       world (if truthy translation
              then App.with_messages
                     (const (alter (App.with_translation translation) index (App.messages s))) s
              else s)
             (t ++ calls))
  end.
Proof.
  intros Hm. unfold App.handleTranslate, App.setMessages. js_simpl.
  rewrite Hm, App_translateText_spec.
  destruct (translator_attempt _ _ _ _) as [| |translation]; js_simpl; try done.
  by destruct (truthy translation).
Qed.

Lemma Part000_handleTranslate_spec self index message s t :
  Part000.messages s !! index = Some message →
  Part000.text message ≠ [] →
  Part000.handleTranslate self index (world s t) =
  let calls := translator_calls self (Part000.text message) (Part000.language message)
                                (Part000.selectedTargetLanguage s) in
  match translator_attempt self (Part000.text message) (Part000.language message)
                           (Part000.selectedTargetLanguage s) with
  | Unavailable =>
      (Normal (),
       world (Part000.with_error (js "Feature unavailable: Text translation.") s)
             (t ++ [ConsoleError (js "Translator API not supported.")]))
  | Failed =>
      (Normal (),
       world (Part000.with_error
                (js "Translation failed. Check if the language pair is supported.") s)
             (t ++ calls ++ [ConsoleError (js "Translation error:")]))
  | Returned translation =>
      (Normal (),
       world (if truthy translation
              then Part000.with_messages
                     (alter (Part000.with_translation translation) index) s
              else s)
             (t ++ calls))
  end.
Proof.
  intros Hm Htext. apply blank_false in Htext.
  unfold Part000.handleTranslate, Part000.setMessages. js_simpl.
  rewrite Hm, Htext, Part000_translateText_spec.
  destruct (translator_attempt _ _ _ _) as [| |translation]; js_simpl; try done.
  by destruct (truthy translation).
Qed.

(** The two handlers return at once on a message without text. *)
Lemma Part000_handle_no_text self index message s t :
  Part000.messages s !! index = Some message →
  Part000.text message = [] →
  Part000.handleSummarize self index (world s t) = (Normal (), world s t)
  ∧ Part000.handleTranslate self index (world s t) = (Normal (), world s t).
Proof.
  intros Hm Htext. unfold Part000.handleSummarize, Part000.handleTranslate.
  js_simpl. by rewrite Hm, Htext.
Qed.

Lemma App_handleSummarize_no_text self index message s t :
  App.messages s !! index = Some message →
  App.text message = [] →
  App.handleSummarize self index (world s t) = (Normal (), world s t).
Proof.
  intros Hm Htext. unfold App.handleSummarize. js_simpl. by rewrite Hm, Htext.
Qed.

(** A click on an index that holds no message throws before anything is
    set. *)
Lemma click_out_of_range self index :
  (∀ s t, App.messages s !! index = None →
     App.handleSummarize self index (world s t) = (Throw, world s t)
     ∧ App.handleTranslate self index (world s t) = (Throw, world s t))
  ∧ (∀ s t, Part000.messages s !! index = None →
     Part000.handleSummarize self index (world s t) = (Throw, world s t)
     ∧ Part000.handleTranslate self index (world s t) = (Throw, world s t)).
Proof.
  split; intros s t Hm.
  - unfold App.handleSummarize, App.handleTranslate. js_simpl. by rewrite Hm.
  - unfold Part000.handleSummarize, Part000.handleTranslate. js_simpl. by rewrite Hm.
Qed.

(** An accepted submission, in full. *)
Lemma App_handleSubmit_spec self s t :
  trim (App.inputText s) ≠ [] →
  ∃ detectedLanguage t',
    App.handleSubmit self (world s t) =
    (Normal (),
     world {| App.messages :=
                App.messages s
                ++ [ {| App.text := App.inputText s;
                        App.detectedLanguage := detectedLanguage;
                        App.summary := VString (js "");
                        App.translation := VString (js "") |} ];
              App.inputText := js "";
              App.selectedLanguage := App.selectedLanguage s;
              App.error := js "" |} t').
Proof.
  intros Hdraft. apply (not_iff_compat (blank_true _)), not_true_is_false in Hdraft.
  unfold App.handleSubmit, App.setError, App.setMessages, App.setInputText.
  js_simpl. rewrite Hdraft, App_detectLanguage_spec.
  destruct (detector_attempt _ _) as [| |[|first results]]; try by do 2 eexists.
  destruct (get_prop first _); by do 2 eexists.
Qed.

(** What the second revision leaves in the error slot after an accepted
    submission. *)
Lemma Part000_handleSubmit_spec self s t :
  trim (Part000.userInput s) ≠ [] →
  ∃ detectedLanguage t',
    Part000.handleSubmit self (world s t) =
    (Normal (),
     world {| Part000.messages :=
                Part000.messages s
                ++ [ {| Part000.text := Part000.userInput s;
                        Part000.language :=
                          js_or detectedLanguage (VString (js "Unknown"));
                        Part000.summary := VNull;
                        Part000.translation := VNull |} ];
              Part000.userInput := js "";
              Part000.selectedTargetLanguage := Part000.selectedTargetLanguage s;
              Part000.error :=
                match detector_attempt self (Part000.userInput s) with
                | Unavailable => js "Feature unavailable: Language detection."
                | Failed => js "Could not detect the language. Please try again."
                | Returned _ => js ""
                end |} t').
Proof.
  intros Hdraft. apply (not_iff_compat (blank_true _)), not_true_is_false in Hdraft.
  unfold Part000.handleSubmit, Part000.setError, Part000.setMessages,
    Part000.setUserInput.
  js_simpl. rewrite Hdraft, Part000_detectLanguage_spec.
  destruct (detector_attempt _ _) as [| |results]; by do 2 eexists.
Qed.

(** What a click can do to the store: nothing to the draft and the
    selection, and to the message list either nothing or one truthy value
    written into the summary or the translation of the clicked message. *)
Lemma App_click_effect self index e s t :
  e = ClickSummarize index ∨ e = ClickTranslate index →
  let s' := store (App.step (world s t) (self, e)) in
  App.inputText s' = App.inputText s
  ∧ App.selectedLanguage s' = App.selectedLanguage s
  ∧ App.error s' = App.error s
  ∧ (App.messages s' = App.messages s
     ∨ ∃ v, truthy v = true
            ∧ (App.messages s' = alter (App.with_summary v) index (App.messages s)
               ∨ App.messages s' = alter (App.with_translation v) index (App.messages s))).
Proof.
  unfold App.step. simpl.
  destruct (App.messages s !! index) as [message|] eqn:Hm.
  - intros [-> | ->]; simpl.
    + destruct (decide (App.text message = [])) as [Htext|Htext].
      { rewrite (App_handleSummarize_no_text _ _ _ _ _ Hm Htext). simpl. tauto. }
      rewrite (App_handleSummarize_spec _ _ _ _ _ Hm Htext).
      destruct (summarizer_attempt _ _) as [| |result]; simpl.
      * tauto.
      * repeat split. right. by exists (VString (js "Error in summarization")); auto.
      * repeat split. right. exists (App_summary_of result).
        auto using App_summary_of_truthy.
    + rewrite (App_handleTranslate_spec _ _ _ _ _ Hm). simpl.
      destruct (translator_attempt _ _ _ _) as [| |translation]; simpl; [tauto..|].
      destruct (truthy translation) eqn:Hv; simpl; [|tauto].
      repeat split. right. eauto.
  - destruct (click_out_of_range self index) as [Hout _].
    destruct (Hout s t Hm) as [H1 H2].
    intros [-> | ->]; simpl; [rewrite H1 | rewrite H2]; simpl; tauto.
Qed.

Lemma Part000_click_effect self index e s t :
  e = ClickSummarize index ∨ e = ClickTranslate index →
  let s' := store (Part000.step (world s t) (self, e)) in
  Part000.userInput s' = Part000.userInput s
  ∧ Part000.selectedTargetLanguage s' = Part000.selectedTargetLanguage s
  ∧ (Part000.messages s' = Part000.messages s
     ∨ ∃ v, truthy v = true
            ∧ (Part000.messages s' = alter (Part000.with_summary v) index (Part000.messages s)
               ∨ Part000.messages s'
                 = alter (Part000.with_translation v) index (Part000.messages s))).
Proof.
  unfold Part000.step. simpl.
  destruct (Part000.messages s !! index) as [message|] eqn:Hm.
  - destruct (decide (Part000.text message = [])) as [Htext|Htext].
    { destruct (Part000_handle_no_text self _ _ s t Hm Htext) as [H1 H2].
      intros [-> | ->]; simpl; [rewrite H1 | rewrite H2]; simpl; tauto. }
    intros [-> | ->]; simpl.
    + rewrite (Part000_handleSummarize_spec _ _ _ _ _ Hm Htext).
      destruct (summarizer_attempt _ _) as [| |result]; simpl; [tauto..|].
      repeat split. right. exists (Part000_summary_of result).
      auto using Part000_summary_of_truthy.
    + rewrite (Part000_handleTranslate_spec _ _ _ _ _ Hm Htext). simpl.
      destruct (translator_attempt _ _ _ _) as [| |translation]; simpl; [tauto..|].
      destruct (truthy translation) eqn:Hv; simpl; [|tauto].
      repeat split. right. eauto.
  - destruct (click_out_of_range self index) as [_ Hout].
    destruct (Hout s t Hm) as [H1 H2].
    intros [-> | ->]; simpl; [rewrite H1 | rewrite H2]; simpl; tauto.
Qed.

(** ** Submission *)

(** C3.  A draft that trims to the empty string (an empty or whitespace-only
    draft, [trim_nil_iff]) is rejected in both revisions: the handler returns
    with the message list, the draft and the selection as they were, the
    error slot set to the validation message, and no capability called. *)
Theorem submit_blank_rejected (self : Self) (draft : jsstring) :
  trim draft = [] →
  (∀ s t, App.inputText s = draft →
     App.handleSubmit self (world s t) =
     (Normal (),
      world {| App.messages := App.messages s;
               App.inputText := draft;
               App.selectedLanguage := App.selectedLanguage s;
               App.error := js "Please enter text before submitting." |} t))
  ∧ (∀ s t, Part000.userInput s = draft →
     Part000.handleSubmit self (world s t) =
     (Normal (),
      world {| Part000.messages := Part000.messages s;
               Part000.userInput := draft;
               Part000.selectedTargetLanguage := Part000.selectedTargetLanguage s;
               Part000.error := js "Input field is empty. Please enter some text." |} t)).
Proof.
  intros Hblank. split; intros s t <-.
  - unfold App.handleSubmit, App.setError. js_simpl. by rewrite Hblank.
  - unfold Part000.handleSubmit, Part000.setError. js_simpl. by rewrite Hblank.
Qed.

Lemma submit_blank_rejected_witness :
  trim (js "  ") = []
  ∧ App.messages (store (App.handleSubmit noAI (world (App_typed (js "  ")) [])).2) = []
  ∧ App.error (store (App.handleSubmit noAI (world (App_typed (js "  ")) [])).2)
    = js "Please enter text before submitting."
  ∧ Part000.messages
      (store (Part000.handleSubmit noAI (world (Part000_typed (js "  ")) [])).2) = []
  ∧ Part000.error
      (store (Part000.handleSubmit noAI (world (Part000_typed (js "  ")) [])).2)
    = js "Input field is empty. Please enter some text.".
Proof.
  assert (Hblank : trim (js "  ") = []) by reflexivity.
  destruct (submit_blank_rejected noAI (js "  ") Hblank) as [HA HP].
  rewrite (HA (App_typed (js "  ")) [] eq_refl).
  rewrite (HP (Part000_typed (js "  ")) [] eq_refl).
  repeat split; reflexivity.
Defined.


(** The spec's own example, run on both revisions: the user types "Hello"
    and submits, in a browser without the detector.  Neither revision
    stores the lower-case string "unknown": [src/App.jsx] stores [null], the
    second revision stores "Unknown". *)
Lemma submit_unknown_sentinel_counterexample :
  (∃ m, App.messages (store (App.run (world App.initial []) hello_session)) = [m]
        ∧ App.detectedLanguage m = VNull
        ∧ App.detectedLanguage m ≠ VString (js "unknown"))
  ∧ (∃ m, Part000.messages (store (Part000.run (world Part000.initial []) hello_session))
          = [m]
          ∧ Part000.language m = VString (js "Unknown")
          ∧ Part000.language m ≠ VString (js "unknown")).
Proof.
  split; eexists; (split; [reflexivity | split; [reflexivity | discriminate]]).
Qed.

(** C1, amended.  When a non-blank draft is submitted and the detector is
    unavailable, fails, or returns an empty list, a message is appended
    whose language field holds the revision's sentinel: [null] in
    [src/App.jsx] (field [detectedLanguage]) and the string "Unknown" in the
    second revision (field [language]).  The draft is emptied. *)
Theorem submit_without_detection (self : Self) (draft : jsstring) :
  trim draft ≠ [] →
  detector_attempt self draft = Unavailable
  ∨ detector_attempt self draft = Failed
  ∨ detector_attempt self draft = Returned [] →
  (∀ s t, App.inputText s = draft →
     ∃ t',
       App.handleSubmit self (world s t) =
       (Normal (),
        world {| App.messages :=
                   App.messages s
                   ++ [ {| App.text := draft; App.detectedLanguage := VNull;
                           App.summary := VString (js "");
                           App.translation := VString (js "") |} ];
                 App.inputText := js "";
                 App.selectedLanguage := App.selectedLanguage s;
                 App.error := js "" |} t'))
  ∧ (∀ s t, Part000.userInput s = draft →
     ∃ t' report,
       Part000.handleSubmit self (world s t) =
       (Normal (),
        world {| Part000.messages :=
                   Part000.messages s
                   ++ [ {| Part000.text := draft;
                           Part000.language := VString (js "Unknown");
                           Part000.summary := VNull;
                           Part000.translation := VNull |} ];
                 Part000.userInput := js "";
                 Part000.selectedTargetLanguage := Part000.selectedTargetLanguage s;
                 Part000.error := report |} t')).
Proof.
  intros Hdraft Hdetect.
  apply (not_iff_compat (blank_true _)), not_true_is_false in Hdraft.
  split; intros s t <-.
  - unfold App.handleSubmit, App.setError, App.setMessages, App.setInputText.
    js_simpl. rewrite Hdraft, App_detectLanguage_spec.
    destruct Hdetect as [-> | [-> | ->]]; eexists; reflexivity.
  - unfold Part000.handleSubmit, Part000.setError, Part000.setMessages,
      Part000.setUserInput.
    js_simpl. rewrite Hdraft, Part000_detectLanguage_spec.
    destruct Hdetect as [-> | [-> | ->]]; do 2 eexists; reflexivity.
Qed.

Lemma submit_without_detection_witness :
  trim (js "Hello") ≠ []
  ∧ detector_attempt silentDetectorAI (js "Hello") = Returned []
  ∧ (∃ t report,
       Part000.handleSubmit silentDetectorAI (world (Part000_typed (js "Hello")) []) =
       (Normal (),
        world {| Part000.messages :=
                   [ {| Part000.text := js "Hello";
                        Part000.language := VString (js "Unknown");
                        Part000.summary := VNull;
                        Part000.translation := VNull |} ];
                 Part000.userInput := js "";
                 Part000.selectedTargetLanguage := js "en";
                 Part000.error := report |} t)).
Proof.
  assert (Hdraft : trim (js "Hello") ≠ []) by (vm_compute; discriminate).
  assert (Hdetect : detector_attempt silentDetectorAI (js "Hello") = Returned [])
    by reflexivity.
  split; [exact Hdraft|]. split; [exact Hdetect|].
  exact (proj2 (submit_without_detection silentDetectorAI (js "Hello") Hdraft
                  (or_intror (or_intror Hdetect)))
               (Part000_typed (js "Hello")) [] eq_refl).
Defined.

(** ** Summarization *)

Lemma calls_of_prefix {H} (create : option (outcome H)) c1 c2 :
  calls_of create c1 c2 `prefix_of` [c1; c2].
Proof.
  destruct create as [[h|]|]; simpl.
  - done.
  - by exists [c2].
  - apply prefix_nil.
Qed.

Lemma calls_of_unavailable {H A} (create : option (outcome H)) (call : H → outcome A) c1 c2 :
  attempt_of create call = Unavailable → calls_of create c1 c2 = [].
Proof.
  unfold attempt_of. destruct create as [[h|]|]; [|done..].
  by destruct (call h).
Qed.

(** In [src/App.jsx] a summarizer whose call rejects changes the summary: the
    handler stores the text "Error in summarization" in the field, and the
    error slot stays as it was. *)
Lemma summarize_failure_counterexample :
  summarizer_attempt (summarizerAI Rejected) (js "Hello") = Failed
  ∧ ∃ m, App.messages
           (store (App.handleSummarize (summarizerAI Rejected) 0 (world App_chat [])).2)
         = [m]
         ∧ App.summary m = VString (js "Error in summarization")
         ∧ App.summary m ≠ App.summary App_hello
         ∧ App.error
             (store (App.handleSummarize (summarizerAI Rejected) 0 (world App_chat [])).2)
           = js "".
Proof.
  split; [reflexivity|]. eexists.
  split; [reflexivity|]. split; [reflexivity|]. split; [discriminate|reflexivity].
Qed.

(** C2, amended.  Summarizing a message with text when the summarizer is
    absent or its call rejects makes a single attempt (at most one creation
    and one call reach the host) and reports on the console.  The second
    revision leaves the message list as it was and writes the error slot.
    [src/App.jsx] leaves the error slot as it was; it leaves the store as it
    was when the summarizer is absent, and when the call rejects it stores
    the text "Error in summarization" in the summary field. *)
Theorem summarize_without_summarizer (self : Self) (text : jsstring) :
  text ≠ [] →
  summarizer_attempt self text = Unavailable ∨ summarizer_attempt self text = Failed →
  summarizer_calls self text `prefix_of` [CreateSummarizer summarizerOptions; Summarize text]
  ∧ (∀ s t index message,
       Part000.messages s !! index = Some message → Part000.text message = text →
       ∃ report console,
         report ≠ []
         ∧ Part000.handleSummarize self index (world s t) =
           (Normal (),
            world {| Part000.messages := Part000.messages s;
                     Part000.userInput := Part000.userInput s;
                     Part000.selectedTargetLanguage := Part000.selectedTargetLanguage s;
                     Part000.error := report |}
                  (t ++ summarizer_calls self text ++ [ConsoleError console])))
  ∧ (∀ s t index message,
       App.messages s !! index = Some message → App.text message = text →
       (summarizer_attempt self text = Unavailable →
        App.handleSummarize self index (world s t) =
        (Normal (), world s (t ++ [ConsoleError (js "Summarizer API not supported.")])))
       ∧ (summarizer_attempt self text = Failed →
          App.handleSummarize self index (world s t) =
          (Normal (),
           world {| App.messages :=
                      <[index := {| App.text := text;
                                    App.detectedLanguage := App.detectedLanguage message;
                                    App.summary := VString (js "Error in summarization");
                                    App.translation := App.translation message |}]>
                        (App.messages s);
                    App.inputText := App.inputText s;
                    App.selectedLanguage := App.selectedLanguage s;
                    App.error := App.error s |}
                 (t ++ summarizer_calls self text
                    ++ [ConsoleError (js "Summarization error:")])))).
Proof.
  intros Htext Hattempt. split; [apply calls_of_prefix|]. split.
  - intros s t index message Hm <-.
    rewrite (Part000_handleSummarize_spec _ _ _ _ _ Hm Htext).
    destruct Hattempt as [Hu | Hf].
    + rewrite Hu. unfold summarizer_calls.
      rewrite (calls_of_unavailable _ _ _ _ Hu).
      do 2 eexists. split; [|reflexivity]. discriminate.
    + rewrite Hf. do 2 eexists. split; [|reflexivity]. discriminate.
  - intros s t index message Hm <-.
    rewrite (App_handleSummarize_spec _ _ _ _ _ Hm Htext).
    split; intros ->; [by destruct s|].
    unfold App.with_messages. by rewrite (alter_insert _ _ _ _ Hm).
Qed.

Lemma summarize_without_summarizer_witness :
  js "Hello" ≠ []
  ∧ summarizer_attempt (summarizerAI Rejected) (js "Hello") = Failed
  ∧ ∃ report console,
      report ≠ []
      ∧ Part000.handleSummarize (summarizerAI Rejected) 0 (world Part000_chat []) =
        (Normal (),
         world {| Part000.messages := [Part000_hello];
                  Part000.userInput := js "";
                  Part000.selectedTargetLanguage := js "en";
                  Part000.error := report |}
               ([CreateSummarizer summarizerOptions; Summarize (js "Hello")]
                  ++ [ConsoleError console])).
Proof.
  assert (Htext : js "Hello" ≠ []) by discriminate.
  assert (Hfailed : summarizer_attempt (summarizerAI Rejected) (js "Hello") = Failed)
    by reflexivity.
  split; [exact Htext|]. split; [exact Hfailed|].
  exact (proj1 (proj2 (summarize_without_summarizer (summarizerAI Rejected) (js "Hello")
                         Htext (or_intror Hfailed)))
               Part000_chat [] 0 Part000_hello eq_refl eq_refl).
Defined.

(** C4.  When the summarizer returns a non-empty string for the text of the
    message at [index], both revisions store that string in the message's
    summary and keep its text, language and translation; every other slot
    of the list is as before, and so is the length of the list. *)
Theorem summarize_success (self : Self) (text result : jsstring) :
  text ≠ [] →
  result ≠ [] →
  summarizer_attempt self text = Returned (VString result) →
  (∀ s t index message,
     App.messages s !! index = Some message → App.text message = text →
     ∃ w',
       App.handleSummarize self index (world s t) = (Normal (), w')
       ∧ App.messages (store w') !! index
         = Some {| App.text := text;
                   App.detectedLanguage := App.detectedLanguage message;
                   App.summary := VString result;
                   App.translation := App.translation message |}
       ∧ (∀ j, j ≠ index → App.messages (store w') !! j = App.messages s !! j)
       ∧ length (App.messages (store w')) = length (App.messages s))
  ∧ (∀ s t index message,
     Part000.messages s !! index = Some message → Part000.text message = text →
     ∃ w',
       Part000.handleSummarize self index (world s t) = (Normal (), w')
       ∧ Part000.messages (store w') !! index
         = Some {| Part000.text := text;
                   Part000.language := Part000.language message;
                   Part000.summary := VString result;
                   Part000.translation := Part000.translation message |}
       ∧ (∀ j, j ≠ index → Part000.messages (store w') !! j = Part000.messages s !! j)
       ∧ length (Part000.messages (store w')) = length (Part000.messages s)).
Proof.
  intros Htext Hresult Hattempt.
  destruct (summary_of_string result Hresult) as [HA HP].
  split; intros s t index message Hm <-.
  - rewrite (App_handleSummarize_spec _ _ _ _ _ Hm Htext), Hattempt, HA.
    eexists. split; [reflexivity|]. simpl. split; [|split].
    + by rewrite list_lookup_alter_eq, Hm.
    + intros j Hj. by apply list_lookup_alter_ne.
    + apply length_alter.
  - rewrite (Part000_handleSummarize_spec _ _ _ _ _ Hm Htext), Hattempt, HP.
    eexists. split; [reflexivity|]. simpl. split; [|split].
    + by rewrite list_lookup_alter_eq, Hm.
    + intros j Hj. by apply list_lookup_alter_ne.
    + apply length_alter.
Qed.

Lemma summarize_success_witness :
  js "Hello" ≠ [] ∧ js "Hi" ≠ []
  ∧ ∃ w',
      Part000.handleSummarize (summarizerAI (Resolved (VString (js "Hi")))) 0
                              (world Part000_chat []) = (Normal (), w')
      ∧ Part000.messages (store w') !! 0
        = Some {| Part000.text := js "Hello"; Part000.language := VString (js "en");
                  Part000.summary := VString (js "Hi"); Part000.translation := VNull |}
      ∧ (∀ j, j ≠ 0 → Part000.messages (store w') !! j = Part000.messages Part000_chat !! j)
      ∧ length (Part000.messages (store w')) = length (Part000.messages Part000_chat).
Proof.
  assert (Htext : js "Hello" ≠ []) by discriminate.
  assert (Hresult : js "Hi" ≠ []) by discriminate.
  split; [exact Htext|]. split; [exact Hresult|].
  exact (proj2 (summarize_success (summarizerAI (Resolved (VString (js "Hi"))))
                  (js "Hello") (js "Hi") Htext Hresult eq_refl)
               Part000_chat [] 0 Part000_hello eq_refl eq_refl).
Defined.

(** A summarizer that returns the empty string does change the summary: each
    revision stores its fixed text instead. *)
Lemma empty_summary_counterexample :
  summarizer_attempt emptySummarizerAI (js "Hello") = Returned (VString (js ""))
  ∧ (∃ m, App.messages
            (store (App.handleSummarize emptySummarizerAI 0 (world App_chat [])).2) = [m]
          ∧ App.summary m = VString (js "Summarization failed")
          ∧ App.summary m ≠ App.summary App_hello)
  ∧ (∃ m, Part000.messages
            (store (Part000.handleSummarize emptySummarizerAI 0 (world Part000_chat [])).2)
          = [m]
          ∧ Part000.summary m = VString (js "Failed to generate summary.")
          ∧ Part000.summary m ≠ Part000.summary Part000_hello).
Proof.
  split; [reflexivity|].
  split; eexists; (split; [reflexivity | split; [reflexivity | discriminate]]).
Qed.

(** C10, amended.  A translator that returns the empty string leaves the
    store as it was, in both revisions.  A summarizer that returns the empty
    string has its answer replaced by a fixed text, which is stored in the
    summary: "Summarization failed" in [src/App.jsx], "Failed to generate
    summary." in the second revision.  Whatever a click stores in a summary
    or a translation is truthy. *)
Theorem empty_result_handling (self : Self) (text : jsstring) :
  text ≠ [] →
  (∀ sourceLang targetLang,
     translator_attempt self text sourceLang targetLang = Returned (VString (js "")) →
     (∀ s t index message,
        App.messages s !! index = Some message → App.text message = text →
        App.detectedLanguage message = sourceLang → App.selectedLanguage s = targetLang →
        App.handleTranslate self index (world s t) =
        (Normal (), world s (t ++ translator_calls self text sourceLang targetLang)))
     ∧ (∀ s t index message,
        Part000.messages s !! index = Some message → Part000.text message = text →
        Part000.language message = sourceLang →
        Part000.selectedTargetLanguage s = targetLang →
        Part000.handleTranslate self index (world s t) =
        (Normal (), world s (t ++ translator_calls self text sourceLang targetLang))))
  ∧ (summarizer_attempt self text = Returned (VString (js "")) →
     (∀ s t index message,
        App.messages s !! index = Some message → App.text message = text →
        App.messages (store (App.handleSummarize self index (world s t)).2)
        = <[index := {| App.text := text;
                        App.detectedLanguage := App.detectedLanguage message;
                        App.summary := VString (js "Summarization failed");
                        App.translation := App.translation message |}]> (App.messages s))
     ∧ (∀ s t index message,
        Part000.messages s !! index = Some message → Part000.text message = text →
        Part000.messages (store (Part000.handleSummarize self index (world s t)).2)
        = <[index := {| Part000.text := text;
                        Part000.language := Part000.language message;
                        Part000.summary := VString (js "Failed to generate summary.");
                        Part000.translation := Part000.translation message |}]>
            (Part000.messages s)))
  ∧ (∀ e index, e = ClickSummarize index ∨ e = ClickTranslate index →
     (∀ s t j m',
        App.messages (store (App.step (world s t) (self, e))) !! j = Some m' →
        ∃ m, App.messages s !! j = Some m
             ∧ (App.summary m' = App.summary m ∨ truthy (App.summary m') = true)
             ∧ (App.translation m' = App.translation m
                ∨ truthy (App.translation m') = true))
     ∧ (∀ s t j m',
        Part000.messages (store (Part000.step (world s t) (self, e))) !! j = Some m' →
        ∃ m, Part000.messages s !! j = Some m
             ∧ (Part000.summary m' = Part000.summary m
                ∨ truthy (Part000.summary m') = true)
             ∧ (Part000.translation m' = Part000.translation m
                ∨ truthy (Part000.translation m') = true))).
Proof.
  intros Htext. split; [|split].
  - intros sourceLang targetLang Hattempt.
    split; intros s t index message Hm <- <- <-.
    + by rewrite (App_handleTranslate_spec _ _ _ _ _ Hm), Hattempt.
    + by rewrite (Part000_handleTranslate_spec _ _ _ _ _ Hm Htext), Hattempt.
  - intros Hattempt. split; intros s t index message Hm <-.
    + rewrite (App_handleSummarize_spec _ _ _ _ _ Hm Htext), Hattempt. simpl.
      by rewrite (alter_insert _ _ _ _ Hm).
    + rewrite (Part000_handleSummarize_spec _ _ _ _ _ Hm Htext), Hattempt. simpl.
      by rewrite (alter_insert _ _ _ _ Hm).
  - intros e index He. split; intros s t j m' Hj.
    + destruct (App_click_effect self index e s t He) as (_ & _ & _ & [Heq | (v & Hv & [Heq | Heq])]);
        rewrite Heq in Hj; [by exists m'; auto|..];
        (destruct (decide (index = j)) as [->|Hne];
         [ rewrite list_lookup_alter_eq in Hj;
           destruct (App.messages s !! j) as [m|]; simplify_eq/=; exists m; auto
         | rewrite list_lookup_alter_ne in Hj by done; exists m'; auto ]).
    + destruct (Part000_click_effect self index e s t He) as (_ & _ & [Heq | (v & Hv & [Heq | Heq])]);
        rewrite Heq in Hj; [by exists m'; auto|..];
        (destruct (decide (index = j)) as [->|Hne];
         [ rewrite list_lookup_alter_eq in Hj;
           destruct (Part000.messages s !! j) as [m|]; simplify_eq/=; exists m; auto
         | rewrite list_lookup_alter_ne in Hj by done; exists m'; auto ]).
Qed.

Lemma empty_result_handling_witness :
  js "Hello" ≠ []
  ∧ translator_attempt muteTranslatorAI (js "Hello") (VString (js "en")) (js "en")
    = Returned (VString (js ""))
  ∧ Part000.handleTranslate muteTranslatorAI 0 (world Part000_chat []) =
    (Normal (),
     world Part000_chat
           ([] ++ translator_calls muteTranslatorAI (js "Hello") (VString (js "en"))
                                   (js "en"))).
Proof.
  assert (Htext : js "Hello" ≠ []) by discriminate.
  split; [exact Htext|]. split; [reflexivity|].
  exact (proj2 (proj1 (empty_result_handling muteTranslatorAI (js "Hello") Htext)
                      (VString (js "en")) (js "en") eq_refl)
               Part000_chat [] 0 Part000_hello eq_refl eq_refl eq_refl eq_refl).
Defined.

(** ** Translation *)

Lemma App_run_cons w a l : App.run w (a :: l) = App.run (App.step w a) l.
Proof. reflexivity. Qed.

Lemma Part000_run_cons w a l : Part000.run w (a :: l) = Part000.run (Part000.step w a) l.
Proof. reflexivity. Qed.

Lemma App_step_select self code s t :
  App.step (world s t) (self, SelectLanguage code)
  = world (App.with_selectedLanguage code s) t.
Proof. reflexivity. Qed.

Lemma Part000_step_select self code s t :
  Part000.step (world s t) (self, SelectLanguage code)
  = world (Part000.with_selectedTargetLanguage code s) t.
Proof. reflexivity. Qed.

Lemma App_step_translate self index message result s t :
  App.messages s !! index = Some message →
  result ≠ [] →
  translator_attempt self (App.text message) (App.detectedLanguage message)
                     (App.selectedLanguage s) = Returned (VString result) →
  App.step (world s t) (self, ClickTranslate index)
  = world (App.with_messages
             (const (alter (App.with_translation (VString result)) index (App.messages s))) s)
          (t ++ translator_calls self (App.text message) (App.detectedLanguage message)
                                 (App.selectedLanguage s)).
Proof.
  intros Hm Hresult Hattempt. unfold App.step. simpl.
  rewrite (App_handleTranslate_spec _ _ _ _ _ Hm). simpl. rewrite Hattempt.
  by destruct result.
Qed.

Lemma Part000_step_translate self index message result s t :
  Part000.messages s !! index = Some message →
  Part000.text message ≠ [] →
  result ≠ [] →
  translator_attempt self (Part000.text message) (Part000.language message)
                     (Part000.selectedTargetLanguage s) = Returned (VString result) →
  Part000.step (world s t) (self, ClickTranslate index)
  = world (Part000.with_messages
             (alter (Part000.with_translation (VString result)) index) s)
          (t ++ translator_calls self (Part000.text message) (Part000.language message)
                                 (Part000.selectedTargetLanguage s)).
Proof.
  intros Hm Htext Hresult Hattempt. unfold Part000.step. simpl.
  rewrite (Part000_handleTranslate_spec _ _ _ _ _ Hm Htext). simpl. rewrite Hattempt.
  by destruct result.
Qed.

(** C5.  The user picks a target language and translates the message at
    [index], then picks another and translates it again; both calls return
    non-empty strings.  In both revisions the list then differs from the
    original one only in the translation of that message, which is the
    second result alone. *)
Theorem translate_twice_overwrites (self : Self) (text : jsstring) (sourceLang : value)
    (target1 target2 result1 result2 : jsstring) :
  text ≠ [] →
  result1 ≠ [] →
  result2 ≠ [] →
  translator_attempt self text sourceLang target1 = Returned (VString result1) →
  translator_attempt self text sourceLang target2 = Returned (VString result2) →
  (∀ s t index message,
     App.messages s !! index = Some message →
     App.text message = text → App.detectedLanguage message = sourceLang →
     App.messages
       (store (App.run (world s t)
                 [ (self, SelectLanguage target1); (self, ClickTranslate index);
                   (self, SelectLanguage target2); (self, ClickTranslate index) ]))
     = <[index := {| App.text := text; App.detectedLanguage := sourceLang;
                     App.summary := App.summary message;
                     App.translation := VString result2 |}]> (App.messages s))
  ∧ (∀ s t index message,
     Part000.messages s !! index = Some message →
     Part000.text message = text → Part000.language message = sourceLang →
     Part000.messages
       (store (Part000.run (world s t)
                 [ (self, SelectLanguage target1); (self, ClickTranslate index);
                   (self, SelectLanguage target2); (self, ClickTranslate index) ]))
     = <[index := {| Part000.text := text; Part000.language := sourceLang;
                     Part000.summary := Part000.summary message;
                     Part000.translation := VString result2 |}]> (Part000.messages s)).
Proof.
  intros Htext Hresult1 Hresult2 Hfirst Hsecond.
  split; intros s t index message Hm <- <-.
  - rewrite App_run_cons, App_step_select.
    rewrite App_run_cons,
      (App_step_translate _ _ message result1) by done.
    rewrite App_run_cons, App_step_select.
    rewrite App_run_cons,
      (App_step_translate _ _ (App.with_translation (VString result1) message) result2);
      [|simpl; by rewrite list_lookup_alter_eq, Hm|done..].
    simpl. rewrite list_alter_alter_eq. by rewrite (alter_insert _ _ _ _ Hm).
  - rewrite Part000_run_cons, Part000_step_select.
    rewrite Part000_run_cons,
      (Part000_step_translate _ _ message result1) by done.
    rewrite Part000_run_cons, Part000_step_select.
    rewrite Part000_run_cons,
      (Part000_step_translate _ _ (Part000.with_translation (VString result1) message)
                              result2);
      [|simpl; by rewrite list_lookup_alter_eq, Hm|done..].
    simpl. rewrite list_alter_alter_eq. by rewrite (alter_insert _ _ _ _ Hm).
Qed.

Lemma translate_twice_overwrites_witness :
  js "Hello" ≠ [] ∧ js "Bonjour" ≠ [] ∧ js "Hola" ≠ []
  ∧ translator_attempt translatorAI (js "Hello") (VString (js "en")) (js "fr")
    = Returned (VString (js "Bonjour"))
  ∧ translator_attempt translatorAI (js "Hello") (VString (js "en")) (js "es")
    = Returned (VString (js "Hola"))
  ∧ Part000.messages
      (store (Part000.run (world Part000_chat [])
                [ (translatorAI, SelectLanguage (js "fr")); (translatorAI, ClickTranslate 0);
                  (translatorAI, SelectLanguage (js "es")); (translatorAI, ClickTranslate 0) ]))
    = [ {| Part000.text := js "Hello"; Part000.language := VString (js "en");
           Part000.summary := VNull; Part000.translation := VString (js "Hola") |} ].
Proof.
  assert (Htext : js "Hello" ≠ []) by discriminate.
  assert (Hresult1 : js "Bonjour" ≠ []) by discriminate.
  assert (Hresult2 : js "Hola" ≠ []) by discriminate.
  repeat (split; [done|]).
  exact (proj2 (translate_twice_overwrites translatorAI (js "Hello") (VString (js "en"))
                  (js "fr") (js "es") (js "Bonjour") (js "Hola")
                  Htext Hresult1 Hresult2 eq_refl eq_refl)
               Part000_chat [] 0 Part000_hello eq_refl eq_refl eq_refl).
Defined.

(** In [src/App.jsx] a translation that fails is not reported to the user:
    the translator rejects, the error slot is empty before the click and
    after it, and the page is the same. *)
Lemma translate_unreported_counterexample :
  translator_attempt translatorAI (js "Hello") (VString (js "en")) (js "en") = Failed
  ∧ App.error App_chat = js ""
  ∧ App.error (store (App.handleTranslate translatorAI 0 (world App_chat [])).2) = js ""
  ∧ App.render (store (App.handleTranslate translatorAI 0 (world App_chat [])).2)
    = App.render App_chat.
Proof. repeat split. Qed.

(** C6, amended.  Translating a message with text when the translator is
    absent or its call rejects leaves the message list, and so any earlier
    translation, as it was, after a single attempt, and the error is logged
    on the console.  The second revision also writes the error to the error
    slot.  [src/App.jsx] reports nothing to the user: its whole store, and
    so the error slot and the page, is as it was. *)
Theorem translate_without_translator (self : Self) (text : jsstring)
    (sourceLang : value) (targetLang : jsstring) :
  text ≠ [] →
  translator_attempt self text sourceLang targetLang = Unavailable
  ∨ translator_attempt self text sourceLang targetLang = Failed →
  let calls := translator_calls self text sourceLang targetLang in
  calls `prefix_of`
    [ CreateTranslator {| sourceLanguage := sourceLang; targetLanguage := targetLang |};
      Translate text ]
  ∧ (∀ s t index message,
       App.messages s !! index = Some message → App.text message = text →
       App.detectedLanguage message = sourceLang → App.selectedLanguage s = targetLang →
       (∃ console,
          App.handleTranslate self index (world s t) =
          (Normal (), world s (t ++ calls ++ [ConsoleError console])))
       ∧ App.error (store (App.handleTranslate self index (world s t)).2) = App.error s
       ∧ App.render (store (App.handleTranslate self index (world s t)).2) = App.render s)
  ∧ (∀ s t index message,
       Part000.messages s !! index = Some message → Part000.text message = text →
       Part000.language message = sourceLang →
       Part000.selectedTargetLanguage s = targetLang →
       ∃ console report,
         report ≠ []
         ∧ Part000.handleTranslate self index (world s t) =
           (Normal (),
            world {| Part000.messages := Part000.messages s;
                     Part000.userInput := Part000.userInput s;
                     Part000.selectedTargetLanguage := targetLang;
                     Part000.error := report |}
                  (t ++ calls ++ [ConsoleError console]))).
Proof.
  intros Htext Hattempt calls. split; [apply calls_of_prefix|].
  assert (Hcalls : translator_attempt self text sourceLang targetLang = Unavailable →
                   calls = []) by apply calls_of_unavailable.
  split; intros s t index message Hm <- <- <-.
  - rewrite (App_handleTranslate_spec _ _ _ _ _ Hm). simpl. fold calls.
    destruct Hattempt as [Hu | Hf].
    + rewrite Hu, (Hcalls Hu). split; [by eexists|done].
    + rewrite Hf. split; [by eexists|done].
  - rewrite (Part000_handleTranslate_spec _ _ _ _ _ Hm Htext). simpl. fold calls.
    destruct Hattempt as [Hu | Hf].
    + rewrite Hu, (Hcalls Hu). do 2 eexists. split; [|reflexivity]. discriminate.
    + rewrite Hf. do 2 eexists. split; [|reflexivity]. discriminate.
Qed.

Lemma translate_without_translator_witness :
  js "Hello" ≠ []
  ∧ translator_attempt translatorAI (js "Hello") (VString (js "en")) (js "en") = Failed
  ∧ (∃ console,
       App.handleTranslate translatorAI 0 (world App_chat []) =
       (Normal (),
        world App_chat
              ([] ++ translator_calls translatorAI (js "Hello") (VString (js "en")) (js "en")
                  ++ [ConsoleError console]))).
Proof.
  assert (Htext : js "Hello" ≠ []) by discriminate.
  split; [exact Htext|]. split; [reflexivity|].
  exact (proj1 (proj1 (proj2 (translate_without_translator translatorAI (js "Hello")
                                (VString (js "en")) (js "en") Htext (or_intror eq_refl)))
                      App_chat [] 0 App_hello eq_refl eq_refl eq_refl eq_refl)).
Defined.

(** ** Sessions *)

Lemma App_handleSubmit_blank self s t :
  trim (App.inputText s) = [] →
  App.handleSubmit self (world s t)
  = (Normal (), world (App.with_error (js "Please enter text before submitting.") s) t).
Proof.
  intros Hblank. unfold App.handleSubmit, App.setError. js_simpl. by rewrite Hblank.
Qed.

Lemma Part000_handleSubmit_blank self s t :
  trim (Part000.userInput s) = [] →
  Part000.handleSubmit self (world s t)
  = (Normal (),
     world (Part000.with_error (js "Input field is empty. Please enter some text.") s) t).
Proof.
  intros Hblank. unfold Part000.handleSubmit, Part000.setError. js_simpl.
  by rewrite Hblank.
Qed.

Lemma fmap_alter_preserved {A B} (g : A → B) (f : A → A) (l : list A) i :
  (∀ x, g (f x) = g x) → g <$> alter f i l = g <$> l.
Proof.
  intros Hf. revert i. induction l as [|x l IH]; intros [|i]; simpl; [done..| |].
  - by rewrite Hf.
  - f_equal. apply IH.
Qed.

(** One event: the texts of the list grow by what the event submits, and
    the draft afterwards is the one [submissions] goes on with. *)
Lemma App_step_texts self e s t l :
  let s' := store (App.step (world s t) (self, e)) in
  (App.text <$> App.messages s') ++ submissions (App.inputText s') l
  = (App.text <$> App.messages s) ++ submissions (App.inputText s) ((self, e) :: l).
Proof.
  destruct e as [v|v| |index|index]; simpl.
  - done.
  - done.
  - unfold App.step. simpl. destruct (blank (trim (App.inputText s))) eqn:Hdraft.
    + apply blank_true in Hdraft. by rewrite App_handleSubmit_blank.
    + apply blank_false in Hdraft.
      destruct (App_handleSubmit_spec self s t Hdraft) as (v & t' & ->). simpl.
      by rewrite fmap_app, <- app_assoc.
  - destruct (App_click_effect self index (ClickSummarize index) s t)
      as (-> & _ & _ & [-> | (v & _ & [-> | ->])]); auto;
      by rewrite ?fmap_alter_preserved.
  - destruct (App_click_effect self index (ClickTranslate index) s t)
      as (-> & _ & _ & [-> | (v & _ & [-> | ->])]); auto;
      by rewrite ?fmap_alter_preserved.
Qed.

Lemma Part000_step_texts self e s t l :
  let s' := store (Part000.step (world s t) (self, e)) in
  (Part000.text <$> Part000.messages s') ++ submissions (Part000.userInput s') l
  = (Part000.text <$> Part000.messages s)
    ++ submissions (Part000.userInput s) ((self, e) :: l).
Proof.
  destruct e as [v|v| |index|index]; simpl.
  - done.
  - done.
  - unfold Part000.step. simpl.
    destruct (blank (trim (Part000.userInput s))) eqn:Hdraft.
    + apply blank_true in Hdraft. by rewrite Part000_handleSubmit_blank.
    + apply blank_false in Hdraft.
      destruct (Part000_handleSubmit_spec self s t Hdraft) as (v & t' & ->). simpl.
      by rewrite fmap_app, <- app_assoc.
  - destruct (Part000_click_effect self index (ClickSummarize index) s t)
      as (-> & _ & [-> | (v & _ & [-> | ->])]); auto;
      by rewrite ?fmap_alter_preserved.
  - destruct (Part000_click_effect self index (ClickTranslate index) s t)
      as (-> & _ & [-> | (v & _ & [-> | ->])]); auto;
      by rewrite ?fmap_alter_preserved.
Qed.

Lemma App_run_texts l w :
  App.text <$> App.messages (store (App.run w l))
  = (App.text <$> App.messages (store w)) ++ submissions (App.inputText (store w)) l.
Proof.
  revert w. induction l as [|[self e] l IH]; intros [s t].
  - simpl. by rewrite app_nil_r.
  - rewrite App_run_cons, IH.
    destruct (App.step (world s t) (self, e)) as [s' t'] eqn:Hstep.
    pose proof (App_step_texts self e s t l) as H. rewrite Hstep in H. exact H.
Qed.

Lemma Part000_run_texts l w :
  Part000.text <$> Part000.messages (store (Part000.run w l))
  = (Part000.text <$> Part000.messages (store w))
    ++ submissions (Part000.userInput (store w)) l.
Proof.
  revert w. induction l as [|[self e] l IH]; intros [s t].
  - simpl. by rewrite app_nil_r.
  - rewrite Part000_run_cons, IH.
    destruct (Part000.step (world s t) (self, e)) as [s' t'] eqn:Hstep.
    pose proof (Part000_step_texts self e s t l) as H. rewrite Hstep in H. exact H.
Qed.

(** One event keeps every message in its slot, with its text and language. *)
Lemma App_step_slots self e s t j m :
  App.messages s !! j = Some m →
  ∃ m', App.messages (store (App.step (world s t) (self, e))) !! j = Some m'
        ∧ App.text m' = App.text m
        ∧ App.detectedLanguage m' = App.detectedLanguage m.
Proof.
  intros Hj.
  assert (Halter : ∀ f index,
            (∀ x, App.text (f x) = App.text x
                  ∧ App.detectedLanguage (f x) = App.detectedLanguage x) →
            ∃ m', alter f index (App.messages s) !! j = Some m'
                  ∧ App.text m' = App.text m
                  ∧ App.detectedLanguage m' = App.detectedLanguage m).
  { intros f index Hf. destruct (decide (index = j)) as [->|Hne].
    - rewrite list_lookup_alter_eq, Hj. simpl. exists (f m). split; [done|apply Hf].
    - rewrite list_lookup_alter_ne by done. by exists m. }
  destruct e as [v|v| |index|index].
  - by exists m.
  - by exists m.
  - unfold App.step. simpl. destruct (blank (trim (App.inputText s))) eqn:Hdraft.
    + apply blank_true in Hdraft. rewrite App_handleSubmit_blank by done. by exists m.
    + apply blank_false in Hdraft.
      destruct (App_handleSubmit_spec self s t Hdraft) as (v & t' & ->). simpl.
      exists m. by rewrite (lookup_app_l_Some _ _ _ _ Hj).
  - destruct (App_click_effect self index (ClickSummarize index) s t)
      as (_ & _ & _ & [-> | (v & _ & [-> | ->])]); auto; [by exists m|..];
      by apply Halter.
  - destruct (App_click_effect self index (ClickTranslate index) s t)
      as (_ & _ & _ & [-> | (v & _ & [-> | ->])]); auto; [by exists m|..];
      by apply Halter.
Qed.

Lemma Part000_step_slots self e s t j m :
  Part000.messages s !! j = Some m →
  ∃ m', Part000.messages (store (Part000.step (world s t) (self, e))) !! j = Some m'
        ∧ Part000.text m' = Part000.text m
        ∧ Part000.language m' = Part000.language m.
Proof.
  intros Hj.
  assert (Halter : ∀ f index,
            (∀ x, Part000.text (f x) = Part000.text x
                  ∧ Part000.language (f x) = Part000.language x) →
            ∃ m', alter f index (Part000.messages s) !! j = Some m'
                  ∧ Part000.text m' = Part000.text m
                  ∧ Part000.language m' = Part000.language m).
  { intros f index Hf. destruct (decide (index = j)) as [->|Hne].
    - rewrite list_lookup_alter_eq, Hj. simpl. exists (f m). split; [done|apply Hf].
    - rewrite list_lookup_alter_ne by done. by exists m. }
  destruct e as [v|v| |index|index].
  - by exists m.
  - by exists m.
  - unfold Part000.step. simpl.
    destruct (blank (trim (Part000.userInput s))) eqn:Hdraft.
    + apply blank_true in Hdraft. rewrite Part000_handleSubmit_blank by done.
      by exists m.
    + apply blank_false in Hdraft.
      destruct (Part000_handleSubmit_spec self s t Hdraft) as (v & t' & ->). simpl.
      exists m. by rewrite (lookup_app_l_Some _ _ _ _ Hj).
  - destruct (Part000_click_effect self index (ClickSummarize index) s t)
      as (_ & _ & [-> | (v & _ & [-> | ->])]); auto; [by exists m|..];
      by apply Halter.
  - destruct (Part000_click_effect self index (ClickTranslate index) s t)
      as (_ & _ & [-> | (v & _ & [-> | ->])]); auto; [by exists m|..];
      by apply Halter.
Qed.

Lemma App_run_slots l w j m :
  App.messages (store w) !! j = Some m →
  ∃ m', App.messages (store (App.run w l)) !! j = Some m'
        ∧ App.text m' = App.text m
        ∧ App.detectedLanguage m' = App.detectedLanguage m.
Proof.
  revert w m. induction l as [|[self e] l IH]; intros [s t] m Hj.
  - by exists m.
  - rewrite App_run_cons.
    destruct (App_step_slots self e s t j m Hj) as (m1 & H1 & Htext & Hlang).
    destruct (IH _ _ H1) as (m' & H' & Htext' & Hlang').
    exists m'. split; [done|]. split; congruence.
Qed.

Lemma Part000_run_slots l w j m :
  Part000.messages (store w) !! j = Some m →
  ∃ m', Part000.messages (store (Part000.run w l)) !! j = Some m'
        ∧ Part000.text m' = Part000.text m
        ∧ Part000.language m' = Part000.language m.
Proof.
  revert w m. induction l as [|[self e] l IH]; intros [s t] m Hj.
  - by exists m.
  - rewrite Part000_run_cons.
    destruct (Part000_step_slots self e s t j m Hj) as (m1 & H1 & Htext & Hlang).
    destruct (IH _ _ H1) as (m' & H' & Htext' & Hlang').
    exists m'. split; [done|]. split; congruence.
Qed.

Lemma submissions_nonblank draft l :
  Forall (λ d, trim d ≠ []) (submissions draft l).
Proof.
  revert draft. induction l as [|[self e] l IH]; intros draft; simpl; [done|].
  destruct e; try apply IH.
  destruct (blank (trim draft)) eqn:Hdraft; [apply IH|].
  constructor; [by apply blank_false|apply IH].
Qed.

(** Every message of a session that starts from the empty list has text, so
    the handlers' early return on a message without text is never taken
    there. *)
Lemma session_texts_nonempty l j :
  (∀ m, App.messages (store (App.run (world App.initial []) l)) !! j = Some m →
        App.text m ≠ [])
  ∧ (∀ m, Part000.messages (store (Part000.run (world Part000.initial []) l)) !! j = Some m →
          Part000.text m ≠ []).
Proof.
  pose proof (submissions_nonblank (js "") l) as Hall.
  rewrite Forall_lookup in Hall.
  split; intros m Hm.
  - pose proof (App_run_texts l (world App.initial [])) as Ht. simpl in Ht.
    apply (f_equal (λ x, x !! j)) in Ht. rewrite list_lookup_fmap, Hm in Ht.
    simpl in Ht. symmetry in Ht. apply Hall in Ht. by intros Heq; rewrite Heq in Ht.
  - pose proof (Part000_run_texts l (world Part000.initial [])) as Ht. simpl in Ht.
    apply (f_equal (λ x, x !! j)) in Ht. rewrite list_lookup_fmap, Hm in Ht.
    simpl in Ht. symmetry in Ht. apply Hall in Ht. by intros Heq; rewrite Heq in Ht.
Qed.

(** ** Rendering *)

Lemma strict_eq_string_true v s : strict_eq_string v s = true ↔ v = VString s.
Proof.
  destruct v as [| |r|fields]; simpl; [split; discriminate..| |split; discriminate].
  rewrite bool_decide_eq_true. split; congruence.
Qed.

Lemma elem_of_when cond (n x : Node) : x ∈ when cond n ↔ cond = true ∧ x = n.
Proof.
  destruct cond; simpl.
  - rewrite list_elem_of_singleton. tauto.
  - rewrite elem_of_nil. split; [tauto|]. intros [? _]. discriminate.
Qed.

Lemma App_renderMessage_summarize i index msg :
  Button (js "Summarize") (ClickSummarize index) ∈ App.renderMessage i msg
  ↔ i = index ∧ 150 < length (App.text msg)
    ∧ App.detectedLanguage msg = VString (js "en").
Proof.
  unfold App.renderMessage.
  rewrite !elem_of_app, !elem_of_cons, !elem_of_when, elem_of_nil.
  rewrite andb_true_iff, Nat.ltb_lt, strict_eq_string_true.
  split.
  - intros H. decompose [or and] H; try done. simplify_eq. tauto.
  - intros (-> & ? & ?). right. left. done.
Qed.

Lemma Part000_renderMessage_summarize selected i index msg :
  Button (js "Summarize") (ClickSummarize index) ∈ Part000.renderMessage selected i msg
  ↔ i = index ∧ 150 < length (Part000.text msg)
    ∧ Part000.language msg = VString (js "en").
Proof.
  unfold Part000.renderMessage.
  rewrite !elem_of_app, !elem_of_cons, !elem_of_when, elem_of_nil.
  rewrite andb_true_iff, Nat.ltb_lt, strict_eq_string_true.
  split.
  - intros H. decompose [or and] H; try done. simplify_eq. tauto.
  - intros (-> & ? & ?). right. left. done.
Qed.

(** C8.  The rendered page carries a Summarize button for the message at
    [index] exactly when that message's text is longer than 150 code units
    and its detected language is the string "en"; in both revisions. *)
Theorem summarize_offered (index : nat) :
  (∀ s, Button (js "Summarize") (ClickSummarize index) ∈ App.render s
        ↔ ∃ msg, App.messages s !! index = Some msg
                 ∧ 150 < length (App.text msg)
                 ∧ App.detectedLanguage msg = VString (js "en"))
  ∧ (∀ s, Button (js "Summarize") (ClickSummarize index) ∈ Part000.render s
          ↔ ∃ message, Part000.messages s !! index = Some message
                       ∧ 150 < length (Part000.text message)
                       ∧ Part000.language message = VString (js "en")).
Proof.
  split; intros s.
  - unfold App.render.
    rewrite !elem_of_app, !elem_of_cons, elem_of_when, elem_of_nil, list_elem_of_join.
    split.
    + intros [[?|?] | [(l & Hx & Hl) | [[?|[?|?]] | (? & ?)]]]; try done.
      apply elem_of_lookup_imap in Hl as (i & msg & -> & Hi).
      apply App_renderMessage_summarize in Hx as (-> & ? & ?). eauto.
    + intros (msg & Hm & ? & ?). right. left.
      exists (App.renderMessage index msg). split.
      * by apply App_renderMessage_summarize.
      * by apply elem_of_lookup_imap_2.
  - unfold Part000.render.
    rewrite !elem_of_app, !elem_of_cons, elem_of_when, elem_of_nil, list_elem_of_join.
    split.
    + intros [[?|?] | [(l & Hx & Hl) | [[?|[?|?]] | (? & ?)]]]; try done.
      apply elem_of_lookup_imap in Hl as (i & msg & -> & Hi).
      apply Part000_renderMessage_summarize in Hx as (-> & ? & ?). eauto.
    + intros (msg & Hm & ? & ?). right. left.
      exists (Part000.renderMessage (Part000.selectedTargetLanguage s) index msg). split.
      * by apply Part000_renderMessage_summarize.
      * by apply elem_of_lookup_imap_2.
Qed.

Lemma summarize_offered_witness :
  Button (js "Summarize") (ClickSummarize 0)
    ∈ Part000.render (Part000.with_messages (const [Part000_long 151]) Part000.initial)
  ∧ Button (js "Summarize") (ClickSummarize 0)
    ∉ Part000.render (Part000.with_messages (const [Part000_long 150]) Part000.initial).
Proof.
  split.
  - apply (proj2 (summarize_offered 0)). exists (Part000_long 151).
    split; [reflexivity|]. split; [|reflexivity].
    change (150 < length (replicate 151 97%N)). rewrite length_replicate. lia.
  - intros H. apply (proj2 (summarize_offered 0)) in H as (message & Hm & Hlen & _).
    injection Hm as <-.
    change (150 < length (replicate 150 97%N)) in Hlen.
    rewrite length_replicate in Hlen. lia.
Defined.

(** ** Errors *)

Lemma App_click_completes self index s t :
  is_Some (App.messages s !! index) →
  (App.handleSummarize self index (world s t)).1 = Normal ()
  ∧ (App.handleTranslate self index (world s t)).1 = Normal ().
Proof.
  intros [message Hm]. split.
  - destruct (decide (App.text message = [])) as [Htext|Htext].
    + by rewrite (App_handleSummarize_no_text _ _ _ _ _ Hm Htext).
    + rewrite (App_handleSummarize_spec _ _ _ _ _ Hm Htext).
      by destruct (summarizer_attempt _ _).
  - rewrite (App_handleTranslate_spec _ _ _ _ _ Hm). simpl.
    by destruct (translator_attempt _ _ _ _).
Qed.

Lemma Part000_click_completes self index s t :
  is_Some (Part000.messages s !! index) →
  (Part000.handleSummarize self index (world s t)).1 = Normal ()
  ∧ (Part000.handleTranslate self index (world s t)).1 = Normal ().
Proof.
  intros [message Hm].
  destruct (decide (Part000.text message = [])) as [Htext|Htext].
  { destruct (Part000_handle_no_text self _ _ s t Hm Htext) as [-> ->]. done. }
  split.
  - rewrite (Part000_handleSummarize_spec _ _ _ _ _ Hm Htext).
    by destruct (summarizer_attempt _ _).
  - rewrite (Part000_handleTranslate_spec _ _ _ _ _ Hm Htext). simpl.
    by destruct (translator_attempt _ _ _ _).
Qed.

Lemma handleSubmit_completes self :
  (∀ s t, (App.handleSubmit self (world s t)).1 = Normal ())
  ∧ (∀ s t, (Part000.handleSubmit self (world s t)).1 = Normal ()).
Proof.
  split; intros s t.
  - destruct (decide (trim (App.inputText s) = [])) as [Hdraft|Hdraft].
    + by rewrite App_handleSubmit_blank.
    + by destruct (App_handleSubmit_spec self s t Hdraft) as (v & t' & ->).
  - destruct (decide (trim (Part000.userInput s) = [])) as [Hdraft|Hdraft].
    + by rewrite Part000_handleSubmit_blank.
    + by destruct (Part000_handleSubmit_spec self s t Hdraft) as (v & t' & ->).
Qed.

(** In [src/App.jsx] the translator being absent writes nothing to the error
    slot: the slot is empty before the click and empty after it, and the
    page shows no error. *)
Lemma capability_error_slot_counterexample :
  translator_attempt noAI (js "Hello") (VString (js "en")) (js "en") = Unavailable
  ∧ App.error App_chat = js ""
  ∧ App.error (store (App.handleTranslate noAI 0 (world App_chat [])).2) = js ""
  ∧ App.render (store (App.handleTranslate noAI 0 (world App_chat [])).2)
    = App.render App_chat.
Proof. repeat split. Qed.

(** C9, amended.  The error slot after each handler, whatever it held
    before.  In the second revision a rejected draft, an absent capability
    and a failed call each put their own message in the slot, and an
    accepted submission whose detection answers leaves the slot empty.  In
    [src/App.jsx] only a rejected draft writes the slot; an accepted
    submission empties it, and a click leaves it as it was whatever the
    capability does.  In both revisions the handlers return normally in all
    these cases. *)
Theorem error_slot_after_handlers (self : Self) :
  (∀ s t,
     trim (Part000.userInput s) = [] →
     Part000.error (store (Part000.handleSubmit self (world s t)).2)
     = js "Input field is empty. Please enter some text.")
  ∧ (∀ s t,
     trim (Part000.userInput s) ≠ [] →
     Part000.error (store (Part000.handleSubmit self (world s t)).2)
     = match detector_attempt self (Part000.userInput s) with
       | Unavailable => js "Feature unavailable: Language detection."
       | Failed => js "Could not detect the language. Please try again."
       | Returned _ => js ""
       end)
  ∧ (∀ s t index message,
     Part000.messages s !! index = Some message → Part000.text message ≠ [] →
     Part000.error (store (Part000.handleSummarize self index (world s t)).2)
     = match summarizer_attempt self (Part000.text message) with
       | Unavailable => js "Feature unavailable: Text summarization."
       | Failed => js "Summarization failed. Please check your input and try again."
       | Returned _ => Part000.error s
       end
     ∧ Part000.error (store (Part000.handleTranslate self index (world s t)).2)
       = match translator_attempt self (Part000.text message) (Part000.language message)
                                  (Part000.selectedTargetLanguage s) with
         | Unavailable => js "Feature unavailable: Text translation."
         | Failed => js "Translation failed. Check if the language pair is supported."
         | Returned _ => Part000.error s
         end)
  ∧ (∀ s t,
     trim (App.inputText s) = [] →
     App.error (store (App.handleSubmit self (world s t)).2)
     = js "Please enter text before submitting.")
  ∧ (∀ s t,
     trim (App.inputText s) ≠ [] →
     App.error (store (App.handleSubmit self (world s t)).2) = js "")
  ∧ (∀ s t index,
     App.error (store (App.handleSummarize self index (world s t)).2) = App.error s
     ∧ App.error (store (App.handleTranslate self index (world s t)).2) = App.error s)
  ∧ (∀ s t, (App.handleSubmit self (world s t)).1 = Normal ())
  ∧ (∀ s t, (Part000.handleSubmit self (world s t)).1 = Normal ())
  ∧ (∀ s t index,
     is_Some (App.messages s !! index) →
     (App.handleSummarize self index (world s t)).1 = Normal ()
     ∧ (App.handleTranslate self index (world s t)).1 = Normal ())
  ∧ (∀ s t index,
     is_Some (Part000.messages s !! index) →
     (Part000.handleSummarize self index (world s t)).1 = Normal ()
     ∧ (Part000.handleTranslate self index (world s t)).1 = Normal ()).
Proof.
  repeat apply conj.
  - intros s t Hdraft. by rewrite Part000_handleSubmit_blank.
  - intros s t Hdraft.
    by destruct (Part000_handleSubmit_spec self s t Hdraft) as (v & t' & ->).
  - intros s t index message Hm Htext. split.
    + rewrite (Part000_handleSummarize_spec _ _ _ _ _ Hm Htext).
      by destruct (summarizer_attempt _ _).
    + rewrite (Part000_handleTranslate_spec _ _ _ _ _ Hm Htext). simpl.
      destruct (translator_attempt _ _ _ _) as [| |v]; [done..|].
      by destruct (truthy v).
  - intros s t Hdraft. by rewrite App_handleSubmit_blank.
  - intros s t Hdraft.
    by destruct (App_handleSubmit_spec self s t Hdraft) as (v & t' & ->).
  - intros s t index. split.
    + by destruct (App_click_effect self index (ClickSummarize index) s t)
        as (_ & _ & H & _); auto.
    + by destruct (App_click_effect self index (ClickTranslate index) s t)
        as (_ & _ & H & _); auto.
  - apply handleSubmit_completes.
  - apply handleSubmit_completes.
  - intros s t index. apply App_click_completes.
  - intros s t index. apply Part000_click_completes.
Qed.

Lemma error_slot_after_handlers_witness :
  trim (Part000.userInput Part000_chat) = []
  ∧ Part000.error (store (Part000.handleSubmit noAI (world Part000_chat [])).2)
    = js "Input field is empty. Please enter some text."
  ∧ Part000.messages Part000_chat !! 0 = Some Part000_hello
  ∧ Part000.error (store (Part000.handleTranslate noAI 0 (world Part000_chat [])).2)
    = js "Feature unavailable: Text translation.".
Proof.
  assert (Hdraft : trim (Part000.userInput Part000_chat) = []) by reflexivity.
  assert (Htext : Part000.text Part000_hello ≠ []) by discriminate.
  destruct (error_slot_after_handlers noAI) as (Hblank & _ & Hclick & _).
  split; [exact Hdraft|]. split; [exact (Hblank Part000_chat [] Hdraft)|].
  split; [reflexivity|].
  exact (proj2 (Hclick Part000_chat [] 0 Part000_hello eq_refl Htext)).
Defined.


(** * Further properties *)

(** ** Detection at submission *)

(** X1.  When the detector answers with a list whose first entry carries a
    truthy [detectedLanguage], an accepted submission stores that value as
    the language of the new message, in both revisions; the other entries
    are not looked at, nothing is reported and the error slot is empty. *)
Theorem submit_stores_first_detection (self : Self) (draft : jsstring)
    (first : value) (others : list value) (code : value) :
  trim draft ≠ [] →
  detector_attempt self draft = Returned (first :: others) →
  get_prop first (js "detectedLanguage") = Some code →
  truthy code = true →
  (∀ s t, App.inputText s = draft →
     App.handleSubmit self (world s t) =
     (Normal (),
      world {| App.messages :=
                 App.messages s
                 ++ [ {| App.text := draft; App.detectedLanguage := code;
                         App.summary := VString (js "");
                         App.translation := VString (js "") |} ];
               App.inputText := js "";
               App.selectedLanguage := App.selectedLanguage s;
               App.error := js "" |}
            (t ++ [CreateLanguageDetector; Detect draft])))
  ∧ (∀ s t, Part000.userInput s = draft →
     Part000.handleSubmit self (world s t) =
     (Normal (),
      world {| Part000.messages :=
                 Part000.messages s
                 ++ [ {| Part000.text := draft; Part000.language := code;
                         Part000.summary := VNull; Part000.translation := VNull |} ];
               Part000.userInput := js "";
               Part000.selectedTargetLanguage := Part000.selectedTargetLanguage s;
               Part000.error := js "" |}
            (t ++ [CreateLanguageDetector; Detect draft]))).
Proof.
  intros Hdraft Hdetect Hprop Hcode.
  assert (Hcalls : detector_calls self draft = [CreateLanguageDetector; Detect draft]).
  { unfold detector_attempt, detector_calls, attempt_of, calls_of in *.
    by destruct (ai self ≫= languageDetector) as [[h|]|]. }
  apply (not_iff_compat (blank_true _)), not_true_is_false in Hdraft.
  split; intros s t <-.
  - unfold App.handleSubmit, App.setError, App.setMessages, App.setInputText.
    js_simpl. rewrite Hdraft, App_detectLanguage_spec, Hdetect, Hprop, Hcalls.
    reflexivity.
  - unfold Part000.handleSubmit, Part000.setError, Part000.setMessages,
      Part000.setUserInput.
    js_simpl. rewrite Hdraft, Part000_detectLanguage_spec, Hdetect, Hcalls. simpl.
    unfold get_prop_opt. rewrite Hprop. simpl. unfold js_or. rewrite Hcode. simpl.
    by rewrite Hcode.
Qed.

Lemma submit_stores_first_detection_witness :
  trim (js "Bonjour") ≠ []
  ∧ detector_attempt (detectorAI [detection "fr"; detection "en"]) (js "Bonjour")
    = Returned [detection "fr"; detection "en"]
  ∧ Part000.handleSubmit (detectorAI [detection "fr"; detection "en"])
                         (world (Part000_typed (js "Bonjour")) []) =
    (Normal (),
     world {| Part000.messages :=
                [ {| Part000.text := js "Bonjour"; Part000.language := VString (js "fr");
                     Part000.summary := VNull; Part000.translation := VNull |} ];
              Part000.userInput := js "";
              Part000.selectedTargetLanguage := js "en";
              Part000.error := js "" |}
           ([] ++ [CreateLanguageDetector; Detect (js "Bonjour")])).
Proof.
  assert (Hdraft : trim (js "Bonjour") ≠ []) by (vm_compute; discriminate).
  split; [exact Hdraft|]. split; [reflexivity|].
  exact (proj2 (submit_stores_first_detection
                  (detectorAI [detection "fr"; detection "en"]) (js "Bonjour")
                  (detection "fr") [detection "en"] (VString (js "fr"))
                  Hdraft eq_refl eq_refl eq_refl)
               (Part000_typed (js "Bonjour")) [] eq_refl).
Defined.

Lemma detector_calls_returned self draft results :
  detector_attempt self draft = Returned results →
  detector_calls self draft = [CreateLanguageDetector; Detect draft].
Proof.
  unfold detector_attempt, detector_calls, attempt_of, calls_of.
  by destruct (ai self ≫= languageDetector) as [[h|]|].
Qed.

(** X2.  In the second revision, when the detector answers but the first
    entry gives no truthy [detectedLanguage] (the list is empty, the entry
    is [null], the property is missing or is the empty string), the new
    message gets the language "Unknown", and no error is reported: the
    error slot is empty and the console is silent. *)
Theorem submit_falsy_detection_unknown (self : Self) (draft : jsstring)
    (results : list value) :
  trim draft ≠ [] →
  detector_attempt self draft = Returned results →
  truthy (get_prop_opt (default VUndefined (head results)) (js "detectedLanguage")) = false →
  ∀ s t, Part000.userInput s = draft →
    Part000.handleSubmit self (world s t) =
    (Normal (),
     world {| Part000.messages :=
                Part000.messages s
                ++ [ {| Part000.text := draft;
                        Part000.language := VString (js "Unknown");
                        Part000.summary := VNull; Part000.translation := VNull |} ];
              Part000.userInput := js "";
              Part000.selectedTargetLanguage := Part000.selectedTargetLanguage s;
              Part000.error := js "" |}
           (t ++ [CreateLanguageDetector; Detect draft])).
Proof.
  intros Hdraft Hdetect Hfalsy s t <-.
  pose proof (detector_calls_returned _ _ _ Hdetect) as Hcalls.
  apply (not_iff_compat (blank_true _)), not_true_is_false in Hdraft.
  unfold Part000.handleSubmit, Part000.setError, Part000.setMessages,
    Part000.setUserInput.
  js_simpl. rewrite Hdraft, Part000_detectLanguage_spec, Hdetect, Hcalls. simpl.
  unfold js_or at 2. rewrite Hfalsy. reflexivity.
Qed.

Lemma submit_falsy_detection_unknown_witness :
  trim (js "Hm") ≠ []
  ∧ detector_attempt (detectorAI [detection ""; detection "en"]) (js "Hm")
    = Returned [detection ""; detection "en"]
  ∧ Part000.handleSubmit (detectorAI [detection ""; detection "en"])
                         (world (Part000_typed (js "Hm")) []) =
    (Normal (),
     world {| Part000.messages :=
                [ {| Part000.text := js "Hm"; Part000.language := VString (js "Unknown");
                     Part000.summary := VNull; Part000.translation := VNull |} ];
              Part000.userInput := js "";
              Part000.selectedTargetLanguage := js "en";
              Part000.error := js "" |}
           ([] ++ [CreateLanguageDetector; Detect (js "Hm")])).
Proof.
  assert (Hdraft : trim (js "Hm") ≠ []) by (vm_compute; discriminate).
  split; [exact Hdraft|]. split; [reflexivity|].
  exact (submit_falsy_detection_unknown (detectorAI [detection ""; detection "en"])
           (js "Hm") [detection ""; detection "en"] Hdraft eq_refl eq_refl
           (Part000_typed (js "Hm")) [] eq_refl).
Defined.

(** X3.  In [src/App.jsx] the first entry's [detectedLanguage] is stored as
    it is, falsy or not (a missing property is stored as [undefined]), with
    nothing reported; and a first entry that is [null] or [undefined] makes
    the read throw inside the [try], so the language is [null] and
    "Language detection error:" goes to the console after the two calls.
    The error slot is empty in both cases. *)
Theorem App_submit_first_entry (self : Self) (draft : jsstring)
    (first : value) (others : list value) :
  trim draft ≠ [] →
  detector_attempt self draft = Returned (first :: others) →
  ∀ s t, App.inputText s = draft →
    App.handleSubmit self (world s t) =
    (Normal (),
     world {| App.messages :=
                App.messages s
                ++ [ {| App.text := draft;
                        App.detectedLanguage :=
                          default VNull (get_prop first (js "detectedLanguage"));
                        App.summary := VString (js "");
                        App.translation := VString (js "") |} ];
              App.inputText := js "";
              App.selectedLanguage := App.selectedLanguage s;
              App.error := js "" |}
           (t ++ [CreateLanguageDetector; Detect draft]
              ++ match first with
                 | VUndefined | VNull => [ConsoleError (js "Language detection error:")]
                 | _ => []
                 end)).
Proof.
  intros Hdraft Hdetect s t <-.
  pose proof (detector_calls_returned _ _ _ Hdetect) as Hcalls.
  apply (not_iff_compat (blank_true _)), not_true_is_false in Hdraft.
  unfold App.handleSubmit, App.setError, App.setMessages, App.setInputText.
  js_simpl. rewrite Hdraft, App_detectLanguage_spec, Hdetect, Hcalls.
  by destruct first.
Qed.

Lemma App_submit_first_entry_witness :
  trim (js "Hm") ≠ []
  ∧ detector_attempt (detectorAI [VNull]) (js "Hm") = Returned [VNull]
  ∧ App.handleSubmit (detectorAI [VNull]) (world (App_typed (js "Hm")) []) =
    (Normal (),
     world {| App.messages :=
                [ {| App.text := js "Hm"; App.detectedLanguage := VNull;
                     App.summary := VString (js "");
                     App.translation := VString (js "") |} ];
              App.inputText := js "";
              App.selectedLanguage := js "en";
              App.error := js "" |}
           ([] ++ [CreateLanguageDetector; Detect (js "Hm")]
               ++ [ConsoleError (js "Language detection error:")])).
Proof.
  assert (Hdraft : trim (js "Hm") ≠ []) by (vm_compute; discriminate).
  split; [exact Hdraft|]. split; [reflexivity|].
  exact (App_submit_first_entry (detectorAI [VNull]) (js "Hm") VNull [] Hdraft eq_refl
           (App_typed (js "Hm")) [] eq_refl).
Defined.

(** X4.  Whatever the host does, an accepted submission appends exactly one
    message, whose text is the draft as typed (not trimmed) and whose
    summary and translation are falsy, so that neither is displayed; it
    empties the draft and keeps the selected language.  In the second
    revision the language of the new message is always truthy. *)
Theorem submit_appends_one (self : Self) (draft : jsstring) :
  trim draft ≠ [] →
  (∀ s t, App.inputText s = draft →
     ∃ m, App.messages (store (App.handleSubmit self (world s t)).2)
          = App.messages s ++ [m]
          ∧ App.text m = draft
          ∧ App.summary m = VString (js "") ∧ App.translation m = VString (js "")
          ∧ App.inputText (store (App.handleSubmit self (world s t)).2) = js ""
          ∧ App.selectedLanguage (store (App.handleSubmit self (world s t)).2)
            = App.selectedLanguage s)
  ∧ (∀ s t, Part000.userInput s = draft →
     ∃ m, Part000.messages (store (Part000.handleSubmit self (world s t)).2)
          = Part000.messages s ++ [m]
          ∧ Part000.text m = draft
          ∧ truthy (Part000.language m) = true
          ∧ Part000.summary m = VNull ∧ Part000.translation m = VNull
          ∧ Part000.userInput (store (Part000.handleSubmit self (world s t)).2) = js ""
          ∧ Part000.selectedTargetLanguage
              (store (Part000.handleSubmit self (world s t)).2)
            = Part000.selectedTargetLanguage s).
Proof.
  intros Hdraft. split; intros s t <-.
  - destruct (App_handleSubmit_spec self s t Hdraft) as (v & t' & ->).
    eexists. split; [reflexivity|]. done.
  - destruct (Part000_handleSubmit_spec self s t Hdraft) as (v & t' & ->).
    eexists. split; [reflexivity|]. simpl.
    by rewrite truthy_js_or, orb_true_r.
Qed.

Lemma submit_appends_one_witness :
  trim (js " hi ") ≠ []
  ∧ ∃ m, App.messages (store (App.handleSubmit noAI (world (App_typed (js " hi ")) [])).2)
         = App.messages (App_typed (js " hi ")) ++ [m]
         ∧ App.text m = js " hi ".
Proof.
  assert (Hdraft : trim (js " hi ") ≠ []) by (vm_compute; discriminate).
  split; [exact Hdraft|].
  destruct (proj1 (submit_appends_one noAI (js " hi ") Hdraft)
                  (App_typed (js " hi ")) [] eq_refl) as (m & Hm & Htext & _).
  exists m. split; [exact Hm | exact Htext].
Defined.

(** ** Capability calls *)

(** X5.  An event only appends to the trace, and what it appends is
    capability calls followed by at most one console report.  The calls are
    a prefix of one creation and one call of the event's own capability
    (the detector for a submission, the summarizer and the translator for
    their clicks) with the arguments of the store: the draft; the fixed
    summarizer options and the message's text; the message's language as
    source, the selected language as target, and the message's text.
    Typing and picking a language append nothing. *)
Theorem event_calls_own_capability (self : Self) (e : Event) :
  (∀ s t, ∃ calls reports,
     trace (App.step (world s t) (self, e)) = t ++ calls ++ reports
     ∧ calls `prefix_of` App_expected_calls s e
     ∧ (reports = [] ∨ ∃ msg, reports = [ConsoleError msg]))
  ∧ (∀ s t, ∃ calls reports,
     trace (Part000.step (world s t) (self, e)) = t ++ calls ++ reports
     ∧ calls `prefix_of` Part000_expected_calls s e
     ∧ (reports = [] ∨ ∃ msg, reports = [ConsoleError msg])).
Proof.
  split; intros s t.
  { assert (Hnone : ∃ calls reports : list Effect,
              t = t ++ calls ++ reports
              ∧ calls `prefix_of` App_expected_calls s e
              ∧ (reports = [] ∨ ∃ msg, reports = [ConsoleError msg])).
    { exists [], []. rewrite app_nil_r. split; [done|]. split; [apply prefix_nil|by left]. }
    destruct e as [v|v| |index|index]; unfold App.step; simpl; try exact Hnone.
    - destruct (decide (trim (App.inputText s) = [])) as [Hdraft|Hdraft].
      { by rewrite App_handleSubmit_blank. }
      apply (not_iff_compat (blank_true _)), not_true_is_false in Hdraft.
      unfold App.handleSubmit, App.setError, App.setMessages, App.setInputText.
      js_simpl. rewrite Hdraft, App_detectLanguage_spec.
      pose proof (calls_of_prefix (ai self ≫= languageDetector) CreateLanguageDetector
                    (Detect (App.inputText s))) as Hprefix.
      fold (detector_calls self (App.inputText s)) in Hprefix.
      destruct (detector_attempt _ _) as [| |[|first results]]; simpl.
      + exists [], [ConsoleError (js "Language Detector API not supported.")].
        split; [reflexivity|]. split; [apply prefix_nil|eauto].
      + eexists _, [_]. split; [reflexivity|]. split; [done|eauto].
      + eexists _, []. rewrite app_nil_r. split; [reflexivity|]. split; [done|by left].
      + destruct (get_prop first _); simpl.
        * eexists _, []. rewrite app_nil_r. split; [reflexivity|]. split; [done|by left].
        * eexists _, [_]. split; [reflexivity|]. split; [done|eauto].
    - destruct (App.messages s !! index) as [message|] eqn:Hm.
      + destruct (decide (App.text message = [])) as [Htext|Htext].
        { rewrite (App_handleSummarize_no_text _ _ _ _ _ Hm Htext).
          simpl in Hnone. by rewrite Hm in Hnone. }
        rewrite (App_handleSummarize_spec _ _ _ _ _ Hm Htext).
        pose proof (calls_of_prefix
                      ((λ create, create summarizerOptions) <$> (ai self ≫= summarizer))
                      (CreateSummarizer summarizerOptions)
                      (Summarize (App.text message))) as Hprefix.
        fold (summarizer_calls self (App.text message)) in Hprefix.
        destruct (summarizer_attempt _ _); simpl.
        * exists [], [ConsoleError (js "Summarizer API not supported.")].
          split; [reflexivity|]. split; [apply prefix_nil|eauto].
        * eexists _, [_]. split; [reflexivity|]. split; [done|eauto].
        * eexists _, []. rewrite app_nil_r. split; [reflexivity|]. split; [done|by left].
      + destruct (proj1 (click_out_of_range self index) s t Hm) as [-> _].
        simpl in Hnone. by rewrite Hm in Hnone.
    - destruct (App.messages s !! index) as [message|] eqn:Hm.
      + rewrite (App_handleTranslate_spec _ _ _ _ _ Hm). simpl.
        pose proof (calls_of_prefix
                      ((λ create, create {| sourceLanguage := App.detectedLanguage message;
                                            targetLanguage := App.selectedLanguage s |})
                         <$> (ai self ≫= translator))
                      (CreateTranslator {| sourceLanguage := App.detectedLanguage message;
                                           targetLanguage := App.selectedLanguage s |})
                      (Translate (App.text message))) as Hprefix.
        fold (translator_calls self (App.text message) (App.detectedLanguage message)
                               (App.selectedLanguage s)) in Hprefix.
        destruct (translator_attempt _ _ _ _); simpl.
        * exists [], [ConsoleError (js "Translator API not supported.")].
          split; [reflexivity|]. split; [apply prefix_nil|eauto].
        * eexists _, [_]. split; [reflexivity|]. split; [done|eauto].
        * eexists _, []. rewrite app_nil_r. split; [reflexivity|]. split; [done|by left].
      + destruct (proj1 (click_out_of_range self index) s t Hm) as [_ ->].
        simpl in Hnone. by rewrite Hm in Hnone. }
  { assert (Hnone : ∃ calls reports : list Effect,
              t = t ++ calls ++ reports
              ∧ calls `prefix_of` Part000_expected_calls s e
              ∧ (reports = [] ∨ ∃ msg, reports = [ConsoleError msg])).
    { exists [], []. rewrite app_nil_r. split; [done|]. split; [apply prefix_nil|by left]. }
    destruct e as [v|v| |index|index]; unfold Part000.step; simpl; try exact Hnone.
    - destruct (decide (trim (Part000.userInput s) = [])) as [Hdraft|Hdraft].
      { by rewrite Part000_handleSubmit_blank. }
      apply (not_iff_compat (blank_true _)), not_true_is_false in Hdraft.
      unfold Part000.handleSubmit, Part000.setError, Part000.setMessages, Part000.setUserInput.
      js_simpl. rewrite Hdraft, Part000_detectLanguage_spec.
      pose proof (calls_of_prefix (ai self ≫= languageDetector) CreateLanguageDetector
                    (Detect (Part000.userInput s))) as Hprefix.
      fold (detector_calls self (Part000.userInput s)) in Hprefix.
      destruct (detector_attempt _ _) as [| |results]; simpl.
      + exists [], [ConsoleError (js "Language Detector API not supported.")].
        split; [reflexivity|]. split; [apply prefix_nil|eauto].
      + eexists _, [_]. split; [reflexivity|]. split; [done|eauto].
      + eexists _, []. rewrite app_nil_r. split; [reflexivity|]. split; [done|by left].
    - destruct (Part000.messages s !! index) as [message|] eqn:Hm.
      + destruct (decide (Part000.text message = [])) as [Htext|Htext].
        { rewrite (proj1 (Part000_handle_no_text self _ _ s t Hm Htext)).
          simpl in Hnone. by rewrite Hm in Hnone. }
        rewrite (Part000_handleSummarize_spec _ _ _ _ _ Hm Htext).
        pose proof (calls_of_prefix
                      ((λ create, create summarizerOptions) <$> (ai self ≫= summarizer))
                      (CreateSummarizer summarizerOptions)
                      (Summarize (Part000.text message))) as Hprefix.
        fold (summarizer_calls self (Part000.text message)) in Hprefix.
        destruct (summarizer_attempt _ _); simpl.
        * exists [], [ConsoleError (js "Summarizer API not supported.")].
          split; [reflexivity|]. split; [apply prefix_nil|eauto].
        * eexists _, [_]. split; [reflexivity|]. split; [done|eauto].
        * eexists _, []. rewrite app_nil_r. split; [reflexivity|]. split; [done|by left].
      + destruct (proj2 (click_out_of_range self index) s t Hm) as [-> _].
        simpl in Hnone. by rewrite Hm in Hnone.
    - destruct (Part000.messages s !! index) as [message|] eqn:Hm.
      + destruct (decide (Part000.text message = [])) as [Htext|Htext].
        { rewrite (proj2 (Part000_handle_no_text self _ _ s t Hm Htext)).
          simpl in Hnone. by rewrite Hm in Hnone. }
        rewrite (Part000_handleTranslate_spec _ _ _ _ _ Hm Htext). simpl.
        pose proof (calls_of_prefix
                      ((λ create, create {| sourceLanguage := Part000.language message;
                                            targetLanguage := Part000.selectedTargetLanguage s |})
                         <$> (ai self ≫= translator))
                      (CreateTranslator {| sourceLanguage := Part000.language message;
                                           targetLanguage := Part000.selectedTargetLanguage s |})
                      (Translate (Part000.text message))) as Hprefix.
        fold (translator_calls self (Part000.text message) (Part000.language message)
                               (Part000.selectedTargetLanguage s)) in Hprefix.
        destruct (translator_attempt _ _ _ _); simpl.
        * exists [], [ConsoleError (js "Translator API not supported.")].
          split; [reflexivity|]. split; [apply prefix_nil|eauto].
        * eexists _, [_]. split; [reflexivity|]. split; [done|eauto].
        * eexists _, []. rewrite app_nil_r. split; [reflexivity|]. split; [done|by left].
      + destruct (proj2 (click_out_of_range self index) s t Hm) as [_ ->].
        simpl in Hnone. by rewrite Hm in Hnone. }
Qed.

(** X6.  When the host exposes the translator, a translate click creates it
    with the message's stored language as source and the currently
    selected language as target.  If the creation resolves, the handle is
    called once with the message's text; if the creation rejects, no call
    follows, "Translation error:" is reported and the messages stay as
    they were. *)
Theorem translate_arguments (self : Self)
    (create : TranslatorOptions → outcome Translator) :
  ai self ≫= translator = Some create →
  (∀ s t index message,
     App.messages s !! index = Some message →
     let options := {| sourceLanguage := App.detectedLanguage message;
                       targetLanguage := App.selectedLanguage s |} in
     match create options with
     | Resolved h =>
         ∃ reports,
           trace (App.handleTranslate self index (world s t)).2
           = t ++ [CreateTranslator options; Translate (App.text message)] ++ reports
     | Rejected =>
         App.handleTranslate self index (world s t)
         = (Normal (),
            world s (t ++ [CreateTranslator options;
                           ConsoleError (js "Translation error:")]))
     end)
  ∧ (∀ s t index message,
     Part000.messages s !! index = Some message → Part000.text message ≠ [] →
     let options := {| sourceLanguage := Part000.language message;
                       targetLanguage := Part000.selectedTargetLanguage s |} in
     match create options with
     | Resolved h =>
         ∃ reports,
           trace (Part000.handleTranslate self index (world s t)).2
           = t ++ [CreateTranslator options; Translate (Part000.text message)] ++ reports
     | Rejected =>
         Part000.handleTranslate self index (world s t)
         = (Normal (),
            world (Part000.with_error
                     (js "Translation failed. Check if the language pair is supported.") s)
                  (t ++ [CreateTranslator options;
                         ConsoleError (js "Translation error:")]))
     end).
Proof.
  intros Hcreate. split.
  - intros s t index message Hm options.
    rewrite (App_handleTranslate_spec _ _ _ _ _ Hm). simpl.
    unfold translator_attempt, translator_calls, attempt_of, calls_of.
    rewrite Hcreate. simpl. fold options.
    destruct (create options) as [h|]; [|done].
    destruct (translate h _); simpl; [by exists []|by eexists [_]].
  - intros s t index message Hm Htext options.
    rewrite (Part000_handleTranslate_spec _ _ _ _ _ Hm Htext). simpl.
    unfold translator_attempt, translator_calls, attempt_of, calls_of.
    rewrite Hcreate. simpl. fold options.
    destruct (create options) as [h|]; [|done].
    destruct (translate h _); simpl; [by exists []|by eexists [_]].
Qed.

Lemma translate_arguments_witness :
  App.messages (App.with_selectedLanguage (js "fr") App_chat) !! 0 = Some App_hello
  ∧ ∃ reports,
      trace (App.handleTranslate translatorAI 0
               (world (App.with_selectedLanguage (js "fr") App_chat) [])).2
      = [] ++ [ CreateTranslator {| sourceLanguage := VString (js "en");
                                    targetLanguage := js "fr" |};
                Translate (js "Hello") ] ++ reports.
Proof.
  split; [reflexivity|].
  exact (proj1 (translate_arguments translatorAI _ eq_refl)
               (App.with_selectedLanguage (js "fr") App_chat) [] 0 App_hello eq_refl).
Defined.

(** ** Clicks that do nothing *)

(** X7.  A click on an index that holds no message throws at the read of
    the message's text, before any call and with the store untouched, in
    both handlers of both revisions.  On a message whose text is empty,
    summarizing returns at once in both revisions, and so does translating
    in the second revision; [src/App.jsx] has no such guard in
    [handleTranslate] and goes on to ask the translator for the empty
    text. *)
Theorem clicks_without_effect (self : Self) (index : nat) :
  (∀ s t, App.messages s !! index = None →
     App.handleSummarize self index (world s t) = (Throw, world s t)
     ∧ App.handleTranslate self index (world s t) = (Throw, world s t))
  ∧ (∀ s t, Part000.messages s !! index = None →
     Part000.handleSummarize self index (world s t) = (Throw, world s t)
     ∧ Part000.handleTranslate self index (world s t) = (Throw, world s t))
  ∧ (∀ s t message, App.messages s !! index = Some message → App.text message = [] →
     App.handleSummarize self index (world s t) = (Normal (), world s t)
     ∧ ∀ create h,
         ai self ≫= translator = Some create →
         create {| sourceLanguage := App.detectedLanguage message;
                   targetLanguage := App.selectedLanguage s |} = Resolved h →
         ∃ reports,
           trace (App.handleTranslate self index (world s t)).2
           = t ++ [ CreateTranslator {| sourceLanguage := App.detectedLanguage message;
                                        targetLanguage := App.selectedLanguage s |};
                    Translate [] ] ++ reports)
  ∧ (∀ s t message,
     Part000.messages s !! index = Some message → Part000.text message = [] →
     Part000.handleSummarize self index (world s t) = (Normal (), world s t)
     ∧ Part000.handleTranslate self index (world s t) = (Normal (), world s t)).
Proof.
  split; [apply click_out_of_range|]. split; [apply click_out_of_range|]. split.
  - intros s t message Hm Htext. split.
    + by apply (App_handleSummarize_no_text _ _ message).
    + intros create h Hcreate Hh.
      rewrite (App_handleTranslate_spec _ _ _ _ _ Hm). simpl.
      unfold translator_attempt, translator_calls, attempt_of, calls_of.
      rewrite Hcreate. simpl. rewrite Hh, Htext.
      destruct (translate h _); simpl; [by exists []|by eexists [_]].
  - intros s t message Hm Htext. by apply (Part000_handle_no_text _ _ message).
Qed.

Lemma clicks_without_effect_witness :
  Part000.messages Part000_chat !! 3 = None
  ∧ Part000.handleSummarize translatorAI 3 (world Part000_chat [])
    = (Throw, world Part000_chat [])
  ∧ Part000.handleTranslate translatorAI 3 (world Part000_chat [])
    = (Throw, world Part000_chat []).
Proof.
  split; [reflexivity|].
  exact (proj1 (proj2 (clicks_without_effect translatorAI 3)) Part000_chat [] eq_refl).
Defined.

(** ** The buttons of the page *)

Lemma App_renderMessage_buttons caption e i msg :
  Button caption e ∈ App.renderMessage i msg
  ↔ (caption = js "Summarize" ∧ e = ClickSummarize i
     ∧ 150 < length (App.text msg) ∧ App.detectedLanguage msg = VString (js "en"))
    ∨ (caption = js "Translate" ∧ e = ClickTranslate i).
Proof.
  unfold App.renderMessage.
  rewrite !elem_of_app, !elem_of_cons, !elem_of_when, elem_of_nil.
  rewrite andb_true_iff, Nat.ltb_lt, strict_eq_string_true.
  split.
  - intros H. decompose [or and] H; try done; simplify_eq; tauto.
  - intros [(-> & -> & ? & ?) | (-> & ->)]; tauto.
Qed.

Lemma Part000_renderMessage_buttons selected caption e i message :
  Button caption e ∈ Part000.renderMessage selected i message
  ↔ (caption = js "Summarize" ∧ e = ClickSummarize i
     ∧ 150 < length (Part000.text message)
     ∧ Part000.language message = VString (js "en"))
    ∨ (caption = js "Translate" ∧ e = ClickTranslate i).
Proof.
  unfold Part000.renderMessage.
  rewrite !elem_of_app, !elem_of_cons, !elem_of_when, elem_of_nil.
  rewrite andb_true_iff, Nat.ltb_lt, strict_eq_string_true.
  split.
  - intros H. decompose [or and] H; try done; simplify_eq; tauto.
  - intros [(-> & -> & ? & ?) | (-> & ->)]; tauto.
Qed.

Lemma App_render_buttons caption e s :
  Button caption e ∈ App.render s
  ↔ (caption = js "Send" ∧ e = Submit)
    ∨ ∃ i msg, App.messages s !! i = Some msg
        ∧ ((caption = js "Summarize" ∧ e = ClickSummarize i
            ∧ 150 < length (App.text msg)
            ∧ App.detectedLanguage msg = VString (js "en"))
           ∨ (caption = js "Translate" ∧ e = ClickTranslate i)).
Proof.
  unfold App.render.
  rewrite !elem_of_app, !elem_of_cons, elem_of_when, elem_of_nil, list_elem_of_join.
  split.
  - intros [[?|?] | [(l & Hx & Hl) | [[?|[?|?]] | (? & ?)]]]; try done.
    + apply elem_of_lookup_imap in Hl as (i & msg & -> & Hi).
      apply App_renderMessage_buttons in Hx. right. by exists i, msg.
    + simplify_eq. by left.
  - intros [(-> & ->) | (i & msg & Hm & H)].
    + right. right. left. right. by left.
    + right. left. exists (App.renderMessage i msg). split.
      * by apply App_renderMessage_buttons.
      * by apply elem_of_lookup_imap_2.
Qed.

Lemma Part000_render_buttons caption e s :
  Button caption e ∈ Part000.render s
  ↔ (caption = js "Send" ∧ e = Submit)
    ∨ ∃ i message, Part000.messages s !! i = Some message
        ∧ ((caption = js "Summarize" ∧ e = ClickSummarize i
            ∧ 150 < length (Part000.text message)
            ∧ Part000.language message = VString (js "en"))
           ∨ (caption = js "Translate" ∧ e = ClickTranslate i)).
Proof.
  unfold Part000.render.
  rewrite !elem_of_app, !elem_of_cons, elem_of_when, elem_of_nil, list_elem_of_join.
  split.
  - intros [[?|?] | [(l & Hx & Hl) | [[?|[?|?]] | (? & ?)]]]; try done.
    + apply elem_of_lookup_imap in Hl as (i & msg & -> & Hi).
      apply Part000_renderMessage_buttons in Hx. right. by exists i, msg.
    + simplify_eq. by left.
  - intros [(-> & ->) | (i & msg & Hm & H)].
    + right. right. left. right. by left.
    + right. left.
      exists (Part000.renderMessage (Part000.selectedTargetLanguage s) i msg). split.
      * by apply Part000_renderMessage_buttons.
      * by apply elem_of_lookup_imap_2.
Qed.

(** X8.  The page carries a Translate button for the slot [index] exactly
    when the list has a message there, whatever its text or language, and
    one Send button always; in both revisions. *)
Theorem translate_offered (index : nat) :
  (∀ s, (Button (js "Translate") (ClickTranslate index) ∈ App.render s
         ↔ is_Some (App.messages s !! index))
        ∧ Button (js "Send") Submit ∈ App.render s)
  ∧ (∀ s, (Button (js "Translate") (ClickTranslate index) ∈ Part000.render s
           ↔ is_Some (Part000.messages s !! index))
          ∧ Button (js "Send") Submit ∈ Part000.render s).
Proof.
  split; intros s; split.
  - rewrite App_render_buttons. split.
    + intros [[? _] | (i & msg & Hm & [(? & _) | (_ & ?)])]; [done..|].
      simplify_eq. by exists msg.
    + intros [msg Hm]. right. exists index, msg. split; [done|]. by right.
  - apply App_render_buttons. by left.
  - rewrite Part000_render_buttons. split.
    + intros [[? _] | (i & msg & Hm & [(? & _) | (_ & ?)])]; [done..|].
      simplify_eq. by exists msg.
    + intros [msg Hm]. right. exists index, msg. split; [done|]. by right.
  - apply Part000_render_buttons. by left.
Qed.

Lemma translate_offered_witness :
  Button (js "Translate") (ClickTranslate 0) ∈ App.render App_chat
  ∧ Button (js "Translate") (ClickTranslate 1) ∉ App.render App_chat.
Proof.
  split.
  - apply (proj1 (proj1 (translate_offered 0) App_chat)). by exists App_hello.
  - intros H. apply (proj1 (proj1 (translate_offered 1) App_chat)) in H as [m Hm].
    discriminate Hm.
Defined.

(** X9.  No button of the page leads to a throwing handler: whatever button
    the rendered store shows, and however the host answers, handling its
    event on that store returns normally.  This holds in both revisions. *)
Theorem offered_buttons_return (self : Self) (caption : jsstring) (e : Event) :
  (∀ s t, Button caption e ∈ App.render s →
     (App.handle self e (world s t)).1 = Normal ())
  ∧ (∀ s t, Button caption e ∈ Part000.render s →
     (Part000.handle self e (world s t)).1 = Normal ()).
Proof.
  split; intros s t Hbutton.
  - apply App_render_buttons in Hbutton
      as [(_ & ->) | (i & msg & Hm & [(_ & -> & _) | (_ & ->)])]; simpl.
    + apply handleSubmit_completes.
    + by apply App_click_completes.
    + by apply App_click_completes.
  - apply Part000_render_buttons in Hbutton
      as [(_ & ->) | (i & msg & Hm & [(_ & -> & _) | (_ & ->)])]; simpl.
    + apply handleSubmit_completes.
    + by apply Part000_click_completes.
    + by apply Part000_click_completes.
Qed.

Lemma offered_buttons_return_witness :
  Button (js "Translate") (ClickTranslate 0) ∈ App.render App_chat
  ∧ (App.handle noAI (ClickTranslate 0) (world App_chat [])).1 = Normal ().
Proof.
  assert (Hbutton : Button (js "Translate") (ClickTranslate 0) ∈ App.render App_chat).
  { apply App_render_buttons. right. exists 0, App_hello. split; [reflexivity|]. by right. }
  split; [exact Hbutton|].
  exact (proj1 (offered_buttons_return noAI (js "Translate") (ClickTranslate 0))
               App_chat [] Hbutton).
Defined.

(** ** Clicks as list updates *)

Lemma App_click_messages self index s t :
  App.messages (store (App.step (world s t) (self, ClickSummarize index)))
  = App_summarize_update self index (App.messages s)
  ∧ App.messages (store (App.step (world s t) (self, ClickTranslate index)))
    = App_translate_update self (App.selectedLanguage s) index (App.messages s).
Proof.
  unfold App.step, App_summarize_update, App_translate_update. simpl.
  destruct (App.messages s !! index) as [message|] eqn:Hm.
  - split.
    + destruct (blank (App.text message)) eqn:Htext.
      * apply blank_true in Htext.
        by rewrite (App_handleSummarize_no_text _ _ _ _ _ Hm Htext).
      * apply blank_false in Htext.
        rewrite (App_handleSummarize_spec _ _ _ _ _ Hm Htext).
        by destruct (summarizer_attempt _ _).
    + rewrite (App_handleTranslate_spec _ _ _ _ _ Hm). simpl.
      destruct (translator_attempt _ _ _ _) as [| |v]; [done..|].
      by destruct (truthy v).
  - by destruct (proj1 (click_out_of_range self index) s t Hm) as [-> ->].
Qed.

Lemma Part000_click_messages self index s t :
  Part000.messages (store (Part000.step (world s t) (self, ClickSummarize index)))
  = Part000_summarize_update self index (Part000.messages s)
  ∧ Part000.messages (store (Part000.step (world s t) (self, ClickTranslate index)))
    = Part000_translate_update self (Part000.selectedTargetLanguage s) index
                               (Part000.messages s).
Proof.
  unfold Part000.step, Part000_summarize_update, Part000_translate_update. simpl.
  destruct (Part000.messages s !! index) as [message|] eqn:Hm.
  - destruct (blank (Part000.text message)) eqn:Htext.
    + apply blank_true in Htext.
      by destruct (Part000_handle_no_text self _ _ s t Hm Htext) as [-> ->].
    + apply blank_false in Htext. split.
      * rewrite (Part000_handleSummarize_spec _ _ _ _ _ Hm Htext).
        by destruct (summarizer_attempt _ _).
      * rewrite (Part000_handleTranslate_spec _ _ _ _ _ Hm Htext). simpl.
        destruct (translator_attempt _ _ _ _) as [| |v]; [done..|].
        by destruct (truthy v).
  - by destruct (proj2 (click_out_of_range self index) s t Hm) as [-> ->].
Qed.

Lemma alter_comm {A} (f g : A → A) (l : list A) i j :
  (∀ x, f (g x) = g (f x)) → alter f i (alter g j l) = alter g j (alter f i l).
Proof.
  intros Hfg. destruct (decide (i = j)) as [->|Hne].
  - rewrite !list_alter_alter_eq. apply list_alter_ext; [|done].
    intros x _. apply Hfg.
  - by apply list_alter_alter_ne.
Qed.

Lemma alter_twice {A} (f : A → A) (l : list A) i :
  (∀ x, f (f x) = f x) → alter f i (alter f i l) = alter f i l.
Proof.
  intros Hf. rewrite list_alter_alter_eq. apply list_alter_ext; [|done].
  intros x _. apply Hf.
Qed.

Lemma App_summarize_update_alter self i j u l :
  App_summarize_update self i (alter (App.with_translation u) j l)
  = alter (App.with_translation u) j (App_summarize_update self i l).
Proof.
  unfold App_summarize_update. rewrite list_lookup_alter.
  destruct (decide (j = i)) as [->|Hne];
    destruct (l !! i) as [message|]; simpl; try done;
    destruct (blank (App.text message)); try done;
    destruct (summarizer_attempt _ _); try done; by apply alter_comm.
Qed.

Lemma App_translate_update_alter self selected i j v l :
  App_translate_update self selected j (alter (App.with_summary v) i l)
  = alter (App.with_summary v) i (App_translate_update self selected j l).
Proof.
  unfold App_translate_update. rewrite list_lookup_alter.
  destruct (decide (i = j)) as [->|Hne];
    destruct (l !! j) as [message|]; simpl; try done;
    destruct (translator_attempt _ _ _ _) as [| |u]; try done;
    destruct (truthy u); try done; by apply alter_comm.
Qed.

Lemma Part000_summarize_update_alter self i j u l :
  Part000_summarize_update self i (alter (Part000.with_translation u) j l)
  = alter (Part000.with_translation u) j (Part000_summarize_update self i l).
Proof.
  unfold Part000_summarize_update. rewrite list_lookup_alter.
  destruct (decide (j = i)) as [->|Hne];
    destruct (l !! i) as [message|]; simpl; try done;
    destruct (blank (Part000.text message)); try done;
    destruct (summarizer_attempt _ _); try done; by apply alter_comm.
Qed.

Lemma Part000_translate_update_alter self selected i j v l :
  Part000_translate_update self selected j (alter (Part000.with_summary v) i l)
  = alter (Part000.with_summary v) i (Part000_translate_update self selected j l).
Proof.
  unfold Part000_translate_update. rewrite list_lookup_alter.
  destruct (decide (i = j)) as [->|Hne];
    destruct (l !! j) as [message|]; simpl; try done;
    destruct (blank (Part000.text message)); try done;
    destruct (translator_attempt _ _ _ _) as [| |u]; try done;
    destruct (truthy u); try done; by apply alter_comm.
Qed.

Lemma App_updates_commute self selected i j l :
  App_summarize_update self i (App_translate_update self selected j l)
  = App_translate_update self selected j (App_summarize_update self i l).
Proof.
  unfold App_translate_update at 1. unfold App_summarize_update at 2.
  destruct (l !! j) as [mj|] eqn:Hj; destruct (l !! i) as [mi|] eqn:Hi;
    repeat match goal with
           | |- context [blank ?x] => destruct (blank x) eqn:?
           | |- context [match summarizer_attempt ?a ?b with _ => _ end] =>
               destruct (summarizer_attempt a b) eqn:?
           | |- context [match translator_attempt ?a ?b ?c ?d with _ => _ end] =>
               destruct (translator_attempt a b c d) eqn:?
           | |- context [if truthy ?x then _ else _] => destruct (truthy x) eqn:?
           end;
    rewrite ?App_translate_update_alter, ?App_summarize_update_alter;
    unfold App_summarize_update, App_translate_update;
    rewrite ?Hi, ?Hj; simpl;
    repeat match goal with H : _ = _ |- _ => rewrite H end;
    try done; by apply alter_comm.
Qed.

Lemma Part000_updates_commute self selected i j l :
  Part000_summarize_update self i (Part000_translate_update self selected j l)
  = Part000_translate_update self selected j (Part000_summarize_update self i l).
Proof.
  unfold Part000_translate_update at 1. unfold Part000_summarize_update at 2.
  destruct (l !! j) as [mj|] eqn:Hj; destruct (l !! i) as [mi|] eqn:Hi;
    repeat match goal with
           | |- context [blank ?x] => destruct (blank x) eqn:?
           | |- context [match summarizer_attempt ?a ?b with _ => _ end] =>
               destruct (summarizer_attempt a b) eqn:?
           | |- context [match translator_attempt ?a ?b ?c ?d with _ => _ end] =>
               destruct (translator_attempt a b c d) eqn:?
           | |- context [if truthy ?x then _ else _] => destruct (truthy x) eqn:?
           end;
    rewrite ?Part000_translate_update_alter, ?Part000_summarize_update_alter;
    unfold Part000_summarize_update, Part000_translate_update;
    rewrite ?Hi, ?Hj; simpl;
    repeat match goal with H : _ = _ |- _ => rewrite H end;
    try done; by apply alter_comm.
Qed.

Lemma App_updates_idempotent self selected i l :
  App_summarize_update self i (App_summarize_update self i l)
  = App_summarize_update self i l
  ∧ App_translate_update self selected i (App_translate_update self selected i l)
    = App_translate_update self selected i l.
Proof.
  split.
  - unfold App_summarize_update at 2.
    destruct (l !! i) as [m|] eqn:Hi; [|by unfold App_summarize_update; rewrite Hi].
    destruct (blank (App.text m)) eqn:Hb;
      [by unfold App_summarize_update; rewrite Hi, Hb|].
    destruct (summarizer_attempt self (App.text m)) eqn:Ha;
      unfold App_summarize_update; rewrite ?list_lookup_alter_eq, Hi; simpl;
      rewrite Hb, Ha; try done; by apply alter_twice.
  - unfold App_translate_update at 2.
    destruct (l !! i) as [m|] eqn:Hi; [|by unfold App_translate_update; rewrite Hi].
    destruct (translator_attempt self (App.text m) (App.detectedLanguage m) selected)
      as [| |u] eqn:Ha;
      [by unfold App_translate_update; rewrite Hi, Ha..|].
    destruct (truthy u) eqn:Hu;
      unfold App_translate_update; rewrite ?list_lookup_alter_eq, Hi; simpl;
      rewrite Ha, Hu; try done; by apply alter_twice.
Qed.

Lemma Part000_updates_idempotent self selected i l :
  Part000_summarize_update self i (Part000_summarize_update self i l)
  = Part000_summarize_update self i l
  ∧ Part000_translate_update self selected i (Part000_translate_update self selected i l)
    = Part000_translate_update self selected i l.
Proof.
  split.
  - unfold Part000_summarize_update at 2.
    destruct (l !! i) as [m|] eqn:Hi; [|by unfold Part000_summarize_update; rewrite Hi].
    destruct (blank (Part000.text m)) eqn:Hb;
      [by unfold Part000_summarize_update; rewrite Hi, Hb|].
    destruct (summarizer_attempt self (Part000.text m)) eqn:Ha;
      unfold Part000_summarize_update; rewrite ?list_lookup_alter_eq, Hi; simpl;
      rewrite Hb, Ha; try done; by apply alter_twice.
  - unfold Part000_translate_update at 2.
    destruct (l !! i) as [m|] eqn:Hi; [|by unfold Part000_translate_update; rewrite Hi].
    destruct (blank (Part000.text m)) eqn:Hb;
      [by unfold Part000_translate_update; rewrite Hi, Hb|].
    destruct (translator_attempt self (Part000.text m) (Part000.language m) selected)
      as [| |u] eqn:Ha;
      [by unfold Part000_translate_update; rewrite Hi, Hb, Ha..|].
    destruct (truthy u) eqn:Hu;
      unfold Part000_translate_update; rewrite ?list_lookup_alter_eq, Hi; simpl;
      rewrite Hb, Ha, Hu; try done; by apply alter_twice.
Qed.


Lemma App_click_selection self index e s t :
  e = ClickSummarize index ∨ e = ClickTranslate index →
  App.selectedLanguage (store (App.step (world s t) (self, e))) = App.selectedLanguage s.
Proof. intros He. by destruct (App_click_effect self index e s t He) as (_ & ? & _). Qed.

Lemma Part000_click_selection self index e s t :
  e = ClickSummarize index ∨ e = ClickTranslate index →
  Part000.selectedTargetLanguage (store (Part000.step (world s t) (self, e)))
  = Part000.selectedTargetLanguage s.
Proof. intros He. by destruct (Part000_click_effect self index e s t He) as (_ & ? & _). Qed.

(** X10.  Clicking Summarize twice on the same message, with the same host,
    leaves the same message list as clicking once; and so does clicking
    Translate twice.  This holds in both revisions, from any store. *)
Theorem click_twice_as_once (self : Self) (index : nat) :
  (∀ w,
     App.messages (store (App.run w [ (self, ClickSummarize index);
                                      (self, ClickSummarize index) ]))
     = App.messages (store (App.run w [(self, ClickSummarize index)]))
     ∧ App.messages (store (App.run w [ (self, ClickTranslate index);
                                        (self, ClickTranslate index) ]))
       = App.messages (store (App.run w [(self, ClickTranslate index)])))
  ∧ (∀ w,
     Part000.messages (store (Part000.run w [ (self, ClickSummarize index);
                                              (self, ClickSummarize index) ]))
     = Part000.messages (store (Part000.run w [(self, ClickSummarize index)]))
     ∧ Part000.messages (store (Part000.run w [ (self, ClickTranslate index);
                                                (self, ClickTranslate index) ]))
       = Part000.messages (store (Part000.run w [(self, ClickTranslate index)]))).
Proof.
  split; intros [s t]; split; unfold App.run, Part000.run; simpl.
  - destruct (App.step (world s t) (self, ClickSummarize index)) as [s1 t1] eqn:H1.
    pose proof (proj1 (App_click_messages self index s t)) as Hs. rewrite H1 in Hs.
    simpl in Hs. simpl. rewrite (proj1 (App_click_messages self index s1 t1)), !Hs.
    apply (proj1 (App_updates_idempotent self (js "") index _)).
  - destruct (App.step (world s t) (self, ClickTranslate index)) as [s1 t1] eqn:H1.
    pose proof (proj2 (App_click_messages self index s t)) as Hs.
    pose proof (App_click_selection self index (ClickTranslate index) s t) as Hsel.
    rewrite H1 in Hs, Hsel. simpl in Hs, Hsel.
    simpl. rewrite (proj2 (App_click_messages self index s1 t1)), !Hs, Hsel by auto.
    apply (proj2 (App_updates_idempotent self _ index _)).
  - destruct (Part000.step (world s t) (self, ClickSummarize index)) as [s1 t1] eqn:H1.
    pose proof (proj1 (Part000_click_messages self index s t)) as Hs. rewrite H1 in Hs.
    simpl in Hs. simpl. rewrite (proj1 (Part000_click_messages self index s1 t1)), !Hs.
    apply (proj1 (Part000_updates_idempotent self (js "") index _)).
  - destruct (Part000.step (world s t) (self, ClickTranslate index)) as [s1 t1] eqn:H1.
    pose proof (proj2 (Part000_click_messages self index s t)) as Hs.
    pose proof (Part000_click_selection self index (ClickTranslate index) s t) as Hsel.
    rewrite H1 in Hs, Hsel. simpl in Hs, Hsel.
    simpl. rewrite (proj2 (Part000_click_messages self index s1 t1)), !Hs, Hsel by auto.
    apply (proj2 (Part000_updates_idempotent self _ index _)).
Qed.


(** ** Invariants of a session *)

Lemma App_submit_messages self s t :
  trim (App.inputText s) ≠ [] →
  App.messages (store (App.handleSubmit self (world s t)).2)
  = App.messages s ++ [App_new_message self (App.inputText s)].
Proof.
  intros Hdraft. apply (not_iff_compat (blank_true _)), not_true_is_false in Hdraft.
  unfold App.handleSubmit, App.setError, App.setMessages, App.setInputText.
  js_simpl. rewrite Hdraft, App_detectLanguage_spec.
  unfold App_new_message, App_detected.
  destruct (detector_attempt _ _) as [| |[|first results]]; try done.
  by destruct (get_prop first _).
Qed.

Lemma Part000_submit_messages self s t :
  trim (Part000.userInput s) ≠ [] →
  Part000.messages (store (Part000.handleSubmit self (world s t)).2)
  = Part000.messages s ++ [Part000_new_message self (Part000.userInput s)].
Proof.
  intros Hdraft. apply (not_iff_compat (blank_true _)), not_true_is_false in Hdraft.
  unfold Part000.handleSubmit, Part000.setError, Part000.setMessages,
    Part000.setUserInput.
  js_simpl. rewrite Hdraft, Part000_detectLanguage_spec.
  unfold Part000_new_message, Part000_detected.
  by destruct (detector_attempt _ _).
Qed.

Lemma Forall_alter_preserved {A} (P : A → Prop) (f : A → A) (l : list A) i :
  (∀ x, P x → P (f x)) → Forall P l → Forall P (alter f i l).
Proof.
  intros Hf Hl. revert i. induction Hl as [|x l Hx Hl IH]; intros [|i]; simpl.
  - constructor.
  - constructor.
  - constructor; [by apply Hf|done].
  - constructor; [done|apply IH].
Qed.

(** A property of messages that the two field writes keep, and that every
    message built by a submission of the session has, holds of every
    message after the session if it held before. *)
Lemma App_run_Forall (P : App.Message → Prop) l :
  (∀ v m, truthy v = true → P m → P (App.with_summary v m)) →
  (∀ v m, truthy v = true → P m → P (App.with_translation v m)) →
  (∀ a draft, a ∈ l → trim draft ≠ [] → P (App_new_message a.1 draft)) →
  ∀ w, Forall P (App.messages (store w)) → Forall P (App.messages (store (App.run w l))).
Proof.
  intros Hsum Htr. induction l as [|[self e] l IH]; intros Hnew [s t] Hall; [done|].
  rewrite App_run_cons. apply IH.
  { intros a draft Ha. apply Hnew. by right. }
  destruct e as [v|v| |index|index]; unfold App.step; simpl; try done.
  - destruct (decide (trim (App.inputText s) = [])) as [Hdraft|Hdraft].
    + by rewrite App_handleSubmit_blank.
    + rewrite App_submit_messages by done. apply Forall_app. split; [done|].
      constructor; [|constructor]. apply (Hnew (self, Submit)); [by left|done].
  - destruct (App_click_effect self index (ClickSummarize index) s t)
      as (_ & _ & _ & [Heq | (v & Hv & [Heq | Heq])]); auto;
      unfold App.step in Heq; simpl in Heq; rewrite Heq; [done|..];
      apply Forall_alter_preserved; auto.
  - destruct (App_click_effect self index (ClickTranslate index) s t)
      as (_ & _ & _ & [Heq | (v & Hv & [Heq | Heq])]); auto;
      unfold App.step in Heq; simpl in Heq; rewrite Heq; [done|..];
      apply Forall_alter_preserved; auto.
Qed.

Lemma Part000_run_Forall (P : Part000.Message → Prop) l :
  (∀ v m, truthy v = true → P m → P (Part000.with_summary v m)) →
  (∀ v m, truthy v = true → P m → P (Part000.with_translation v m)) →
  (∀ a draft, a ∈ l → trim draft ≠ [] → P (Part000_new_message a.1 draft)) →
  ∀ w, Forall P (Part000.messages (store w)) →
       Forall P (Part000.messages (store (Part000.run w l))).
Proof.
  intros Hsum Htr. induction l as [|[self e] l IH]; intros Hnew [s t] Hall; [done|].
  rewrite Part000_run_cons. apply IH.
  { intros a draft Ha. apply Hnew. by right. }
  destruct e as [v|v| |index|index]; unfold Part000.step; simpl; try done.
  - destruct (decide (trim (Part000.userInput s) = [])) as [Hdraft|Hdraft].
    + by rewrite Part000_handleSubmit_blank.
    + rewrite Part000_submit_messages by done. apply Forall_app. split; [done|].
      constructor; [|constructor]. apply (Hnew (self, Submit)); [by left|done].
  - destruct (Part000_click_effect self index (ClickSummarize index) s t)
      as (_ & _ & [Heq | (v & Hv & [Heq | Heq])]); auto;
      unfold Part000.step in Heq; simpl in Heq; rewrite Heq; [done|..];
      apply Forall_alter_preserved; auto.
  - destruct (Part000_click_effect self index (ClickTranslate index) s t)
      as (_ & _ & [Heq | (v & Hv & [Heq | Heq])]); auto;
      unfold Part000.step in Heq; simpl in Heq; rewrite Heq; [done|..];
      apply Forall_alter_preserved; auto.
Qed.

(** X12.  In a session that starts from the empty list, every message has
    a non-empty text, and its summary and its translation are either the
    value the submission gave them (the empty string in [src/App.jsx],
    [null] in the second revision) or truthy.  In the second revision the
    language of every message is truthy. *)
Theorem session_messages_well_formed (l : list (Self * Event)) (t : list Effect) :
  (∀ i m, App.messages (store (App.run (world App.initial t) l)) !! i = Some m →
     App.text m ≠ []
     ∧ (App.summary m = VString (js "") ∨ truthy (App.summary m) = true)
     ∧ (App.translation m = VString (js "") ∨ truthy (App.translation m) = true))
  ∧ (∀ i m, Part000.messages (store (Part000.run (world Part000.initial t) l)) !! i = Some m →
     Part000.text m ≠ []
     ∧ truthy (Part000.language m) = true
     ∧ (Part000.summary m = VNull ∨ truthy (Part000.summary m) = true)
     ∧ (Part000.translation m = VNull ∨ truthy (Part000.translation m) = true)).
Proof.
  split; intros i m Hm.
  - eapply (Forall_lookup_1
             (λ m, App.text m ≠ []
                   ∧ (App.summary m = VString (js "") ∨ truthy (App.summary m) = true)
                   ∧ (App.translation m = VString (js "")
                      ∨ truthy (App.translation m) = true))); [|exact Hm].
    apply App_run_Forall.
    + intros v x Hv (? & ? & ?). simpl. auto.
    + intros v x Hv (? & ? & ?). simpl. auto.
    + intros a draft _ Hdraft. simpl. split; [|auto].
      intros ->. by apply Hdraft.
    + constructor.
  - eapply (Forall_lookup_1
             (λ m, Part000.text m ≠ []
                   ∧ truthy (Part000.language m) = true
                   ∧ (Part000.summary m = VNull ∨ truthy (Part000.summary m) = true)
                   ∧ (Part000.translation m = VNull
                      ∨ truthy (Part000.translation m) = true))); [|exact Hm].
    apply Part000_run_Forall.
    + intros v x Hv (? & ? & ? & ?). simpl. auto.
    + intros v x Hv (? & ? & ? & ?). simpl. auto.
    + intros a draft _ Hdraft. simpl. split; [|split; [|auto]].
      * intros ->. by apply Hdraft.
      * by rewrite truthy_js_or, orb_true_r.
    + constructor.
Qed.

Lemma session_messages_well_formed_witness :
  Part000.messages (store (Part000.run (world Part000.initial []) hello_session)) !! 0
  = Some {| Part000.text := js "Hello"; Part000.language := VString (js "Unknown");
            Part000.summary := VNull; Part000.translation := VNull |}
  ∧ js "Hello" ≠ [] ∧ truthy (VString (js "Unknown")) = true.
Proof.
  assert (Hm : Part000.messages
                 (store (Part000.run (world Part000.initial []) hello_session)) !! 0
               = Some {| Part000.text := js "Hello";
                         Part000.language := VString (js "Unknown");
                         Part000.summary := VNull; Part000.translation := VNull |})
    by reflexivity.
  split; [exact Hm|].
  destruct (proj2 (session_messages_well_formed hello_session []) 0 _ Hm)
    as (Htext & Hlang & _).
  split; [exact Htext | exact Hlang].
Defined.

(** X13.  In a session whose hosts never expose the language detector, no
    message is ever detected as English, so the page never offers a
    Summarize button; in both revisions. *)
Theorem no_detector_no_summarize (l : list (Self * Event)) (t : list Effect) :
  (∀ a, a ∈ l → ai a.1 ≫= languageDetector = None) →
  ∀ index,
    (Button (js "Summarize") (ClickSummarize index)
       ∉ App.render (store (App.run (world App.initial t) l)))
    ∧ (Button (js "Summarize") (ClickSummarize index)
         ∉ Part000.render (store (Part000.run (world Part000.initial t) l))).
Proof.
  intros Hhosts index.
  assert (Hattempt : ∀ a draft, a ∈ l → detector_attempt a.1 draft = Unavailable).
  { intros a draft Ha. unfold detector_attempt. by rewrite (Hhosts a Ha). }
  split; intros Hbutton.
  - apply App_render_buttons in Hbutton
      as [(? & _) | (i & m & Hm & [(_ & _ & _ & Hen) | (? & _)])]; [done| |done].
    revert Hen.
    eapply (Forall_lookup_1 (λ m, App.detectedLanguage m ≠ VString (js "en")));
      [|exact Hm].
    apply App_run_Forall.
    + by intros v x _ ?.
    + by intros v x _ ?.
    + intros a draft Ha _. simpl. unfold App_detected. by rewrite Hattempt.
    + constructor.
  - apply Part000_render_buttons in Hbutton
      as [(? & _) | (i & m & Hm & [(_ & _ & _ & Hen) | (? & _)])]; [done| |done].
    revert Hen.
    eapply (Forall_lookup_1 (λ m, Part000.language m ≠ VString (js "en")));
      [|exact Hm].
    apply Part000_run_Forall.
    + by intros v x _ ?.
    + by intros v x _ ?.
    + intros a draft Ha _. simpl. unfold Part000_detected. by rewrite Hattempt.
    + constructor.
Qed.

Lemma no_detector_no_summarize_witness :
  (∀ a, a ∈ hello_session → ai a.1 ≫= languageDetector = None)
  ∧ (Button (js "Summarize") (ClickSummarize 0)
       ∉ Part000.render (store (Part000.run (world Part000.initial []) hello_session))).
Proof.
  assert (Hhosts : ∀ a, a ∈ hello_session → ai a.1 ≫= languageDetector = None).
  { intros a Ha. unfold hello_session in Ha.
    apply elem_of_cons in Ha as [->|Ha]; [reflexivity|].
    apply elem_of_cons in Ha as [->|Ha]; [reflexivity|].
    by apply elem_of_nil in Ha. }
  split; [exact Hhosts|].
  exact (proj2 (no_detector_no_summarize hello_session [] Hhosts 0)).
Defined.

(** ** The cells beside the list *)

Lemma App_step_cells self e s t :
  let s' := store (App.step (world s t) (self, e)) in
  App.inputText s'
  = match e with
    | Change v => v
    | Submit => if blank (trim (App.inputText s)) then App.inputText s else js ""
    | _ => App.inputText s
    end
  ∧ App.selectedLanguage s'
    = match e with SelectLanguage v => v | _ => App.selectedLanguage s end
  ∧ App.error s'
    = match e with
      | Submit => if blank (trim (App.inputText s))
                  then js "Please enter text before submitting." else js ""
      | _ => App.error s
      end.
Proof.
  destruct e as [v|v| |index|index]; simpl; try done.
  - unfold App.step. simpl. destruct (blank (trim (App.inputText s))) eqn:Hdraft.
    + apply blank_true in Hdraft. by rewrite App_handleSubmit_blank.
    + apply blank_false in Hdraft.
      by destruct (App_handleSubmit_spec self s t Hdraft) as (v & t' & ->).
  - destruct (App_click_effect self index (ClickSummarize index) s t)
      as (? & ? & ? & _); auto.
  - destruct (App_click_effect self index (ClickTranslate index) s t)
      as (? & ? & ? & _); auto.
Qed.

Lemma Part000_step_cells self e s t :
  let s' := store (Part000.step (world s t) (self, e)) in
  Part000.selectedTargetLanguage s'
  = match e with SelectLanguage v => v | _ => Part000.selectedTargetLanguage s end
  ∧ (Part000.error s' = Part000.error s ∨ Part000.error s' ∈ Part000_error_messages).
Proof.
  destruct e as [v|v| |index|index]; simpl; try (split; [done|by left]).
  - unfold Part000.step. simpl. destruct (blank (trim (Part000.userInput s))) eqn:Hdraft.
    + apply blank_true in Hdraft. rewrite Part000_handleSubmit_blank by done.
      split; [done|]. right. simpl. unfold Part000_error_messages. repeat constructor.
    + apply blank_false in Hdraft.
      destruct (Part000_handleSubmit_spec self s t Hdraft) as (v & t' & ->). simpl.
      split; [done|]. right.
      destruct (detector_attempt _ _); unfold Part000_error_messages; repeat constructor.
  - split; [by apply (Part000_click_selection self index); left|].
    unfold Part000.step. simpl.
    destruct (Part000.messages s !! index) as [message|] eqn:Hm.
    + destruct (decide (Part000.text message = [])) as [Htext|Htext].
      { rewrite (proj1 (Part000_handle_no_text self _ _ s t Hm Htext)). by left. }
      rewrite (Part000_handleSummarize_spec _ _ _ _ _ Hm Htext).
      destruct (summarizer_attempt _ _); simpl; [|..|by left];
        right; unfold Part000_error_messages; repeat constructor.
    + rewrite (proj1 (proj2 (click_out_of_range self index) s t Hm)). by left.
  - split; [by apply (Part000_click_selection self index); right|].
    unfold Part000.step. simpl.
    destruct (Part000.messages s !! index) as [message|] eqn:Hm.
    + destruct (decide (Part000.text message = [])) as [Htext|Htext].
      { rewrite (proj2 (Part000_handle_no_text self _ _ s t Hm Htext)). by left. }
      rewrite (Part000_handleTranslate_spec _ _ _ _ _ Hm Htext). simpl.
      destruct (translator_attempt _ _ _ _) as [| |v]; simpl;
        [right; unfold Part000_error_messages; repeat constructor..|].
      destruct (truthy v); by left.
    + rewrite (proj2 (proj2 (click_out_of_range self index) s t Hm)). by left.
Qed.

(** X14.  In [src/App.jsx] the error slot depends only on the submissions:
    after a session it shows the validation message if the last submission
    was rejected, nothing if it was accepted, and what it showed before if
    nothing was submitted.  No click and no answer of the host changes
    it. *)
Theorem App_error_follows_submissions (l : list (Self * Event)) (w : World App.State) :
  App.error (store (App.run w l))
  = App_error_after (App.inputText (store w)) (App.error (store w)) l.
Proof.
  revert w. induction l as [|[self e] l IH]; intros [s t]; [done|].
  rewrite App_run_cons, IH.
  destruct (App_step_cells self e s t) as (-> & _ & ->).
  destruct e; simpl; try done. by destruct (blank (trim (App.inputText s))).
Qed.

(** X15.  In the second revision the error slot of a session that starts
    from the initial store is always one of eight texts: empty, the
    validation message, or the unavailable and failure messages of the
    three capabilities. *)
Theorem Part000_error_slot_values (l : list (Self * Event)) (t : list Effect) :
  Part000.error (store (Part000.run (world Part000.initial t) l))
    ∈ Part000_error_messages.
Proof.
  assert (Hrun : ∀ w, Part000.error (store w) ∈ Part000_error_messages →
            Part000.error (store (Part000.run w l)) ∈ Part000_error_messages).
  { induction l as [|[self e] l IH]; intros [s u] Hs; [done|].
    rewrite Part000_run_cons. apply IH.
    destruct (Part000_step_cells self e s u) as (_ & [-> | ?]); done. }
  apply Hrun. simpl. constructor.
Qed.

(** X16.  The selected target language after a session is the last one the
    user picked, or the one selected before if none was picked ("en" in a
    fresh component): no handler changes it.  This holds in both
    revisions. *)
Theorem selection_is_last_pick (l : list (Self * Event)) :
  (∀ w, App.selectedLanguage (store (App.run w l))
        = selection (App.selectedLanguage (store w)) l)
  ∧ (∀ w, Part000.selectedTargetLanguage (store (Part000.run w l))
          = selection (Part000.selectedTargetLanguage (store w)) l).
Proof.
  induction l as [|[self e] l IH]; [done|].
  split; intros [s t].
  - rewrite App_run_cons, (proj1 IH).
    destruct (App_step_cells self e s t) as (_ & -> & _). by destruct e.
  - rewrite Part000_run_cons, (proj2 IH).
    destruct (Part000_step_cells self e s t) as (-> & _). by destruct e.
Qed.

(** ** Summaries that are objects *)

(** X17.  When the summarizer returns an object, both revisions store the
    object's [summary] property if it is truthy, and the object itself
    otherwise. *)
Theorem summarize_object_result (self : Self) (text : jsstring)
    (fields : list (jsstring * value)) :
  text ≠ [] →
  summarizer_attempt self text = Returned (VObject fields) →
  let stored := js_or (assoc (js "summary") fields) (VObject fields) in
  (∀ s t index message,
     App.messages s !! index = Some message → App.text message = text →
     App.messages (store (App.handleSummarize self index (world s t)).2)
     = <[index := {| App.text := text;
                     App.detectedLanguage := App.detectedLanguage message;
                     App.summary := stored;
                     App.translation := App.translation message |}]> (App.messages s))
  ∧ (∀ s t index message,
     Part000.messages s !! index = Some message → Part000.text message = text →
     Part000.messages (store (Part000.handleSummarize self index (world s t)).2)
     = <[index := {| Part000.text := text;
                     Part000.language := Part000.language message;
                     Part000.summary := stored;
                     Part000.translation := Part000.translation message |}]>
         (Part000.messages s)).
Proof.
  intros Htext Hattempt stored.
  assert (HA : App_summary_of (VObject fields) = stored) by reflexivity.
  assert (HP : Part000_summary_of (VObject fields) = stored).
  { unfold Part000_summary_of, stored. unfold js_or at 1.
    by rewrite truthy_js_or, orb_true_r. }
  split; intros s t index message Hm <-.
  - rewrite (App_handleSummarize_spec _ _ _ _ _ Hm Htext), Hattempt, HA. simpl.
    by rewrite (alter_insert _ _ _ _ Hm).
  - rewrite (Part000_handleSummarize_spec _ _ _ _ _ Hm Htext), Hattempt, HP. simpl.
    by rewrite (alter_insert _ _ _ _ Hm).
Qed.

Lemma summarize_object_result_witness :
  js "Hello" ≠ []
  ∧ Part000.messages
      (store (Part000.handleSummarize
                (summarizerAI (Resolved (VObject [(js "summary", VString (js "Hi"))])))
                0 (world Part000_chat [])).2)
    = [ {| Part000.text := js "Hello"; Part000.language := VString (js "en");
           Part000.summary := VString (js "Hi"); Part000.translation := VNull |} ].
Proof.
  assert (Htext : js "Hello" ≠ []) by discriminate.
  split; [exact Htext|].
  exact (proj2 (summarize_object_result
                  (summarizerAI (Resolved (VObject [(js "summary", VString (js "Hi"))])))
                  (js "Hello") [(js "summary", VString (js "Hi"))] Htext eq_refl)
               Part000_chat [] 0 Part000_hello eq_refl eq_refl).
Defined.

(** ** What the page shows of a message *)

Lemma Part000_renderMessage_results selected label v i message :
  label = js "Summary:" ∨ label = js "Translation:" →
  Paragraph label v ∈ Part000.renderMessage selected i message
  ↔ truthy v = true
    ∧ ((label = js "Summary:" ∧ Part000.summary message = v)
       ∨ (label = js "Translation:" ∧ Part000.translation message = v)).
Proof.
  intros Hlabel. unfold Part000.renderMessage.
  rewrite !elem_of_app, !elem_of_cons, !elem_of_when, elem_of_nil.
  split.
  - intros H. decompose [or and] H; try done; simplify_eq; try done;
      destruct Hlabel; simplify_eq; tauto.
  - intros (Hv & [(-> & <-) | (-> & <-)]); tauto.
Qed.



(** ** From a draft to a displayed summary *)



(** * Handlers that overlap *)

(** A handler that is resumed at once does what [Part000.handle] does: the
    suspended form and the form run to completion embed the same code. *)
Lemma Overlap_settle_at_once self e s t :
  match (Overlap.start self e (world s t)).1 with
  | Normal (Some task) =>
      Overlap.resume task (Overlap.start self e (world s t)).2
      = Part000.handle self e (world s t)
  | Normal None =>
      Part000.handle self e (world s t) = (Normal (), (Overlap.start self e (world s t)).2)
  | Throw =>
      Part000.handle self e (world s t) = (Throw, (Overlap.start self e (world s t)).2)
  end.
Proof.
  destruct e as [v|v| |index|index]; try done.
  - unfold Overlap.start, Part000.handle, Part000.handleSubmit, Part000.detectLanguage.
    destruct (blank (trim (Part000.userInput s))) eqn:Hdraft;
      destruct (ai self ≫= languageDetector) as [create|] eqn:Hcreate;
      js_unfold; repeat (progress (simpl; rewrite ?Hdraft)); done.
  - unfold Overlap.start, Part000.handle, Part000.handleSummarize, Part000.summarizeText.
    destruct (Part000.messages s !! index) as [message|] eqn:Hm;
      [destruct (blank (Part000.text message)) eqn:Htext|];
      destruct (ai self ≫= summarizer) as [create|] eqn:Hcreate;
      js_unfold; repeat (progress (simpl; rewrite ?Hm, ?Htext)); done.
  - unfold Overlap.start, Part000.handle, Part000.handleTranslate, Part000.translateText.
    destruct (Part000.messages s !! index) as [message|] eqn:Hm;
      [destruct (blank (Part000.text message)) eqn:Htext|];
      destruct (ai self ≫= translator) as [create|] eqn:Hcreate;
      js_unfold; repeat (progress (simpl; rewrite ?Hm, ?Htext)); done.
Qed.

(** What settling a suspended handler does to the list. *)
Lemma Overlap_resume_messages task s t :
  match task with
  | Overlap.AwaitDetection _ userInput =>
      ∃ m, Part000.messages (store (Overlap.resume task (world s t)).2)
           = Part000.messages s ++ [m]
           ∧ Part000.text m = userInput
  | Overlap.AwaitSummary _ index _ =>
      Part000.messages (store (Overlap.resume task (world s t)).2) = Part000.messages s
      ∨ ∃ v, Part000.messages (store (Overlap.resume task (world s t)).2)
             = alter (Part000.with_summary v) index (Part000.messages s)
  | Overlap.AwaitTranslation _ index _ =>
      Part000.messages (store (Overlap.resume task (world s t)).2) = Part000.messages s
      ∨ ∃ v, Part000.messages (store (Overlap.resume task (world s t)).2)
             = alter (Part000.with_translation v) index (Part000.messages s)
  end.
Proof.
  destruct task as [created userInput|created index text|created index text];
    unfold Overlap.resume, Overlap.detectLanguage_rest, Overlap.summarizeText_rest,
      Overlap.translateText_rest, settle; js_unfold; simpl.
  - destruct created as [h|]; simpl; [destruct (detect h _); simpl|]; by eexists.
  - destruct created as [h|]; simpl; [|by left].
    destruct (summarize h _) as [v|]; simpl; [|by left].
    destruct (truthy _); simpl; [right; by eexists|by left].
  - destruct created as [h|]; simpl; [|by left].
    destruct (translate h _) as [v|]; simpl; [|by left].
    destruct (truthy _); simpl; [right; by eexists|by left].
Qed.

(** An event either suspends its handler, with the list as it was and a
    slot that holds a message, or is handled to its end as in
    [Part000.step]. *)
Lemma Overlap_start_cases self e s t :
  (∃ task,
     (Overlap.start self e (world s t)).1 = Normal (Some task)
     ∧ Part000.messages (store (Overlap.start self e (world s t)).2) = Part000.messages s
     ∧ (∀ index, Overlap.target task = Some index → is_Some (Part000.messages s !! index))
     ∧ (e = Submit → is_Some (ai self ≫= languageDetector)))
  ∨ ((∀ task, (Overlap.start self e (world s t)).1 ≠ Normal (Some task))
     ∧ (Overlap.start self e (world s t)).2 = Part000.step (world s t) (self, e)
     ∧ (e = Submit → is_Some (ai self ≫= languageDetector) →
        blank (trim (Part000.userInput s)) = true)).
Proof.
  assert (Hend : ∀ r : completion () * World Part000.State,
            let r' := let (c, w') := r in
                      match c with
                      | Normal _ => (Normal (@None Overlap.Task), w')
                      | Throw => (Throw, w')
                      end in
            (∀ task, r'.1 ≠ Normal (Some task)) ∧ r'.2 = r.2).
  { by intros [[[]|] w']. }
  destruct e as [v|v| |index|index]; unfold Overlap.start, Part000.step.
  - right. split; [done|]. split; [done|discriminate].
  - right. split; [done|]. split; [done|discriminate].
  - destruct (ai self ≫= languageDetector) as [create|] eqn:Hcreate; js_unfold; simpl.
    + destruct (blank (trim (Part000.userInput s))) eqn:Hdraft.
      * right. destruct (Hend (Part000.handleSubmit self (world s t))) as [H1 H2].
        split; [exact H1|]. split; [exact H2|done].
      * left. eexists. split; [reflexivity|]. split; [done|]. split; [done|eauto].
    + right. destruct (Hend (Part000.handleSubmit self (world s t))) as [H1 H2].
      split; [exact H1|]. split; [exact H2|]. by intros _ [? ?].
  - destruct (ai self ≫= summarizer) as [create|] eqn:Hcreate; js_unfold; simpl;
      destruct (Part000.messages s !! index) as [message|] eqn:Hm;
      try destruct (blank (Part000.text message)) eqn:Htext;
      try (right;
           destruct (Hend (Part000.handleSummarize self index (world s t))) as [H1 H2];
           split; [exact H1|]; split; [exact H2|discriminate]).
    left. eexists. split; [reflexivity|]. split; [done|]. split; [|discriminate].
    intros ? [= <-]. by rewrite Hm.
  - destruct (ai self ≫= translator) as [create|] eqn:Hcreate; js_unfold; simpl;
      destruct (Part000.messages s !! index) as [message|] eqn:Hm;
      try destruct (blank (Part000.text message)) eqn:Htext;
      try (right;
           destruct (Hend (Part000.handleTranslate self index (world s t))) as [H1 H2];
           split; [exact H1|]; split; [exact H2|discriminate]).
    left. eexists. split; [reflexivity|]. split; [done|]. split; [|discriminate].
    intros ? [= <-]. by rewrite Hm.
Qed.

Lemma Overlap_step_texts sys a :
  Part000.text <$> Part000.messages (store (Overlap.current (Overlap.step sys a)))
  = (Part000.text <$> Part000.messages (store (Overlap.current sys)))
    ++ Overlap.appended sys a.
Proof.
  destruct sys as [[s t] tasks]. destruct a as [self e|k]; simpl.
  - destruct (Overlap_start_cases self e s t)
      as [(task & _ & -> & _ & Hdetector) | (_ & -> & Hblank)].
    + destruct e; rewrite ?app_nil_r; try done.
      by destruct (Hdetector eq_refl) as [create ->]; rewrite app_nil_r.
    + pose proof (Part000_step_texts self e s t []) as Htexts.
      simpl in Htexts. rewrite app_nil_r in Htexts. rewrite Htexts.
      destruct e; try done.
      destruct (ai self ≫= languageDetector) as [create|]; [|done].
      by rewrite Hblank by eauto.
  - destruct (tasks !! k) as [task|] eqn:Hk; simpl; [|by rewrite app_nil_r].
    pose proof (Overlap_resume_messages task s t) as Hresume.
    destruct task as [created userInput|created index text|created index text].
    + destruct Hresume as (m & -> & <-). by rewrite fmap_app.
    + rewrite app_nil_r.
      destruct Hresume as [-> | (v & ->)]; [done|by apply fmap_alter_preserved].
    + rewrite app_nil_r.
      destruct Hresume as [-> | (v & ->)]; [done|by apply fmap_alter_preserved].
Qed.

Lemma Overlap_step_slots sys a j m :
  Part000.messages (store (Overlap.current sys)) !! j = Some m →
  ∃ m', Part000.messages (store (Overlap.current (Overlap.step sys a))) !! j = Some m'
        ∧ Part000.text m' = Part000.text m
        ∧ Part000.language m' = Part000.language m.
Proof.
  destruct sys as [[s t] tasks]. simpl. intros Hj.
  assert (Halter : ∀ f index,
            (∀ x, Part000.text (f x) = Part000.text x
                  ∧ Part000.language (f x) = Part000.language x) →
            ∃ m', alter f index (Part000.messages s) !! j = Some m'
                  ∧ Part000.text m' = Part000.text m
                  ∧ Part000.language m' = Part000.language m).
  { intros f index Hf. destruct (decide (index = j)) as [->|Hne].
    - rewrite list_lookup_alter_eq, Hj. simpl. exists (f m). split; [done|apply Hf].
    - rewrite list_lookup_alter_ne by done. by exists m. }
  destruct a as [self e|k]; simpl.
  - destruct (Overlap_start_cases self e s t) as [(task & _ & -> & _) | (_ & -> & _)].
    + by exists m.
    + by apply Part000_step_slots.
  - destruct (tasks !! k) as [task|] eqn:Hk; simpl; [|by exists m].
    pose proof (Overlap_resume_messages task s t) as Hresume.
    destruct task as [created userInput|created index text|created index text].
    + destruct Hresume as (m1 & -> & _). exists m.
      by rewrite (lookup_app_l_Some _ _ _ _ Hj).
    + destruct Hresume as [-> | (v & ->)]; [by exists m|by apply Halter].
    + destruct Hresume as [-> | (v & ->)]; [by exists m|by apply Halter].
Qed.

(** The slot a suspended click will write holds a message when the click
    settles: the list never gets shorter while the click is pending. *)
Lemma Overlap_tasks_in_range l sys :
  Forall (λ task, ∀ index, Overlap.target task = Some index →
            index < length (Part000.messages (store (Overlap.current sys))))
         (Overlap.pending sys) →
  Forall (λ task, ∀ index, Overlap.target task = Some index →
            index < length (Part000.messages
                              (store (Overlap.current (Overlap.run sys l)))))
         (Overlap.pending (Overlap.run sys l)).
Proof.
  revert sys. induction l as [|a l IH]; intros sys Hsys; [done|].
  apply (IH (Overlap.step sys a)).
  assert (Hlen : length (Part000.messages (store (Overlap.current sys)))
                 ≤ length (Part000.messages (store (Overlap.current (Overlap.step sys a))))).
  { pose proof (f_equal length (Overlap_step_texts sys a)) as H.
    rewrite length_app, !length_fmap in H. lia. }
  assert (Hold : Forall (λ task, ∀ index, Overlap.target task = Some index →
                    index < length (Part000.messages
                                      (store (Overlap.current (Overlap.step sys a)))))
                   (Overlap.pending sys)).
  { eapply Forall_impl; [exact Hsys|]. intros task H index Hindex.
    specialize (H index Hindex). lia. }
  destruct sys as [[s t] tasks]. destruct a as [self e|k]; simpl in *.
  - apply Forall_app. split; [exact Hold|].
    destruct (Overlap_start_cases self e s t)
      as [(task & -> & _ & Hrange & _) | (Hnone & _)].
    + constructor; [|constructor]. intros index Hindex.
      apply Hrange, lookup_lt_is_Some in Hindex. lia.
    + destruct (Overlap.start self e (world s t)).1 as [[task|]|];
        [by destruct (Hnone task)|constructor..].
  - destruct (tasks !! k) as [task|] eqn:Hk; simpl in *; [|done].
    by apply Forall_delete.
Qed.

Lemma Overlap_run_cons sys a l :
  Overlap.run sys (a :: l) = Overlap.run (Overlap.step sys a) l.
Proof. reflexivity. Qed.

Lemma Overlap_run_texts l sys :
  Part000.text <$> Part000.messages (store (Overlap.current (Overlap.run sys l)))
  = (Part000.text <$> Part000.messages (store (Overlap.current sys)))
    ++ Overlap.appended_along sys l.
Proof.
  revert sys. induction l as [|a l IH]; intros sys.
  - simpl. by rewrite app_nil_r.
  - rewrite Overlap_run_cons, IH, Overlap_step_texts. simpl. by rewrite app_assoc.
Qed.

Lemma Overlap_run_slots l sys j m :
  Part000.messages (store (Overlap.current sys)) !! j = Some m →
  ∃ m', Part000.messages (store (Overlap.current (Overlap.run sys l))) !! j = Some m'
        ∧ Part000.text m' = Part000.text m
        ∧ Part000.language m' = Part000.language m.
Proof.
  revert sys m. induction l as [|a l IH]; intros sys m Hj.
  - by exists m.
  - rewrite Overlap_run_cons.
    destruct (Overlap_step_slots sys a j m Hj) as (m1 & H1 & Htext & Hlang).
    destruct (IH _ _ H1) as (m' & H' & Htext' & Hlang').
    exists m'. split; [done|]. split; congruence.
Qed.

(** The user submits "A" and then "B", but the list ends up as B, A: the
    second revision appends a message when its detection answers, and the
    detection of "B" answered first. *)
Lemma overtaking_submission_counterexample :
  submissions (js "") (Overlap.events overtaking_schedule) = [js "A"; js "B"]
  ∧ Part000.text
      <$> Part000.messages
            (store (Overlap.current (Overlap.run Overlap.initial overtaking_schedule)))
    = [js "B"; js "A"].
Proof. split; reflexivity. Qed.

(** C7, amended.  When the events are handled one after the other, each
    handler having returned before the next event, the texts of the
    message list after a session are the texts before it followed by the
    drafts the session submitted, in the order of submission, and every
    message of the list before the session is still in its slot after it,
    with its text and language; in both revisions.  When the handlers of
    the second revision overlap, every action still only appends texts at
    the end of the list and keeps every message in its slot; the draft of
    a suspended submission is appended when its detection settles, so the
    texts after a schedule are the texts before it followed by the drafts
    in the order in which the submissions were completed. *)
Theorem messages_follow_submissions :
  (∀ l w,
     App.text <$> App.messages (store (App.run w l))
     = (App.text <$> App.messages (store w)) ++ submissions (App.inputText (store w)) l
     ∧ ∀ j m, App.messages (store w) !! j = Some m →
         ∃ m', App.messages (store (App.run w l)) !! j = Some m'
               ∧ App.text m' = App.text m
               ∧ App.detectedLanguage m' = App.detectedLanguage m)
  ∧ (∀ l w,
     Part000.text <$> Part000.messages (store (Part000.run w l))
     = (Part000.text <$> Part000.messages (store w))
       ++ submissions (Part000.userInput (store w)) l
     ∧ ∀ j m, Part000.messages (store w) !! j = Some m →
         ∃ m', Part000.messages (store (Part000.run w l)) !! j = Some m'
               ∧ Part000.text m' = Part000.text m
               ∧ Part000.language m' = Part000.language m)
  ∧ (∀ sys a,
     Part000.text <$> Part000.messages (store (Overlap.current (Overlap.step sys a)))
     = (Part000.text <$> Part000.messages (store (Overlap.current sys)))
       ++ Overlap.appended sys a)
  ∧ (∀ l sys,
     Part000.text <$> Part000.messages (store (Overlap.current (Overlap.run sys l)))
     = (Part000.text <$> Part000.messages (store (Overlap.current sys)))
       ++ Overlap.appended_along sys l
     ∧ ∀ j m, Part000.messages (store (Overlap.current sys)) !! j = Some m →
         ∃ m', Part000.messages (store (Overlap.current (Overlap.run sys l))) !! j
               = Some m'
               ∧ Part000.text m' = Part000.text m
               ∧ Part000.language m' = Part000.language m).
Proof.
  split; [|split; [|split]].
  - intros l w. split; [apply App_run_texts|]. intros j m. apply App_run_slots.
  - intros l w. split; [apply Part000_run_texts|]. intros j m. apply Part000_run_slots.
  - apply Overlap_step_texts.
  - intros l sys. split; [apply Overlap_run_texts|]. intros j m. apply Overlap_run_slots.
Qed.

(** Submitting "A" then "B" one after the other yields the messages A, B;
    with the detection of "B" overtaking that of "A", the list is B, A, the
    order of completion. *)
Lemma messages_follow_submissions_witness :
  App.text <$> App.messages (store (App.run (world App.initial []) ab_session))
  = [js "A"; js "B"]
  ∧ Part000.text
      <$> Part000.messages (store (Part000.run (world Part000.initial []) ab_session))
    = [js "A"; js "B"]
  ∧ Part000.text
      <$> Part000.messages
            (store (Overlap.current (Overlap.run Overlap.initial overtaking_schedule)))
    = [] ++ Overlap.appended_along Overlap.initial overtaking_schedule
  ∧ Overlap.appended_along Overlap.initial overtaking_schedule = [js "B"; js "A"].
Proof.
  destruct messages_follow_submissions as (HA & HP & _ & HO).
  split; [exact (proj1 (HA ab_session (world App.initial [])))|].
  split; [exact (proj1 (HP ab_session (world Part000.initial [])))|].
  split; [exact (proj1 (HO overtaking_schedule Overlap.initial))|reflexivity].
Defined.
